(** * kontainer-engine-driver-aliyun: the driver of [aliyun_driver.go]

    A shallow embedding of the driver: the configuration record [state] and
    its decoding from an option bag, the create-request builder, the state
    codec over the cluster-info metadata, the two polling loops, the
    credential resolver and the lifecycle operations.

    Go values are modelled as follows.  A [string] is a byte string; an
    [int64] is a [Z] (the driver does no arithmetic on it); a pointer is an
    [option] ([None] is [nil]); a [map[string]string] is an
    [option (gmap string string)] ([None] is the nil map); a slice is a
    [list]; an [error] is its message; a run-time panic of a pure function is
    [None] in the option monad. *)

From Stdlib Require Import String Ascii ZArith List Lia.
From stdpp Require Import base option gmap strings list fin_maps.
From ITree Require Import ITree ITreeFacts Events.State Events.StateFacts.

Import ListNotations.
Local Open Scope string_scope.
Local Open Scope Z_scope.
Local Open Scope list_scope.

(** ** Constants of the source *)

Definition runningStatus : string := "RUNNING".
Definition defaultCredentialEnv : string := "GOOGLE_APPLICATION_CREDENTIALS".
Definition none : string := "none".

(** ** Go basics *)

(** The built-in [error]: only its message is observable in the driver. *)
Definition error : Type := string.

(** [fmt.Errorf] with a constant format and no verbs. *)
Definition fmt_Errorf (msg : string) : error := msg.

(** [s != ""]. *)
Definition nonempty (s : string) : bool := negb (String.eqb s "").

(** [strings.Split(s, sep)] for a one-byte separator [sep], the only form the
    driver uses ([strings.Split(part, "=")]): the pieces between the
    occurrences of the byte, an empty input giving one empty piece. *)
Fixpoint strings_Split (s : string) (sep : ascii) : list string :=
  match s with
  | EmptyString => [EmptyString]
  | String a rest =>
      if Ascii.eqb a sep then EmptyString :: strings_Split rest sep
      else match strings_Split rest sep with
           | piece :: pieces => String a piece :: pieces
           | [] => [String a EmptyString]
           end
  end.

(** [strings.HasPrefix(s, p)] and [strings.Contains(s, sub)]. *)
Fixpoint strings_HasPrefix (s p : string) : bool :=
  match p, s with
  | EmptyString, _ => true
  | String b p', String a s' => Ascii.eqb a b && strings_HasPrefix s' p'
  | String _ _, EmptyString => false
  end.

Fixpoint strings_Contains (s sub : string) : bool :=
  strings_HasPrefix s sub ||
  match s with
  | EmptyString => false
  | String _ s' => strings_Contains s' sub
  end.

(** ** The provider's and the engine's data types

    Of the imported structs only the fields the driver reads or writes are
    kept. *)

Module raw.

Record MasterAuth : Type := mkMasterAuth {
  Username : string;
  Password : string;
  ClusterCaCertificate : string }.

Record NodeConfig : Type := mkNodeConfig {
  DiskSizeGb : Z;
  MachineType : string;
  ImageType : string;
  Labels : option (gmap string string) }.

Record HttpLoadBalancing : Type := mkHttpLoadBalancing { hlb_Disabled : bool }.
Record HorizontalPodAutoscaling : Type := mkHorizontalPodAutoscaling { hpa_Disabled : bool }.
Record KubernetesDashboard : Type := mkKubernetesDashboard { kd_Disabled : bool }.
Record NetworkPolicyConfig : Type := mkNetworkPolicyConfig { npc_Disabled : bool }.

Record AddonsConfig : Type := mkAddonsConfig {
  HttpLoadBalancing_ : option HttpLoadBalancing;
  HorizontalPodAutoscaling_ : option HorizontalPodAutoscaling;
  KubernetesDashboard_ : option KubernetesDashboard;
  NetworkPolicyConfig_ : option NetworkPolicyConfig }.

Record LegacyAbac : Type := mkLegacyAbac { Enabled : bool }.

Record DailyMaintenanceWindow : Type := mkDailyMaintenanceWindow { StartTime : string }.
Record MaintenanceWindow : Type := mkMaintenanceWindow {
  DailyMaintenanceWindow_ : option DailyMaintenanceWindow }.
Record MaintenancePolicy : Type := mkMaintenancePolicy { Window : option MaintenanceWindow }.

Record Cluster : Type := mkCluster {
  Name : string;
  Zone : string;
  InitialClusterVersion : string;
  InitialNodeCount : Z;
  ClusterIpv4Cidr : string;
  Description : string;
  EnableKubernetesAlpha : bool;
  AddonsConfig_ : option AddonsConfig;
  Network : string;
  Subnetwork : string;
  LegacyAbac_ : option LegacyAbac;
  MasterAuth_ : option MasterAuth;
  NodeConfig_ : option NodeConfig;
  ResourceLabels : option (gmap string string);
  LoggingService : string;
  MonitoringService : string;
  MaintenancePolicy_ : option MaintenancePolicy;
  Status : string;
  Endpoint : string }.

(** [&raw.Cluster{}]. *)
Definition Cluster_zero : Cluster :=
  mkCluster "" "" "" 0 "" "" false None "" "" None None None None "" "" None "" "".

Record CreateClusterRequest : Type := mkCreateClusterRequest {
  Cluster_ : option Cluster }.

Record NodePool : Type := mkNodePool {
  np_Name : string;
  np_Status : string }.

Record Operation : Type := mkOperation { HTTPStatusCode : Z }.

(** The API client handle; opaque to the driver. *)
Record Service : Type := mkService { BasePath : string }.

End raw.

Module types.

Record ClusterInfo : Type := mkClusterInfo {
  Version : string;
  ServiceAccountToken : string;
  Endpoint : string;
  Username : string;
  Password : string;
  RootCaCertificate : string;
  ClientCertificate : string;
  ClientKey : string;
  NodeCount : Z;
  Metadata : option (gmap string string) }.

(** [types.ClusterInfo{}]. *)
Definition ClusterInfo_zero : ClusterInfo :=
  mkClusterInfo "" "" "" "" "" "" "" "" 0 None.

Record NodeCount_ : Type := mkNodeCount { Count : Z }.
Record KubernetesVersion : Type := mkKubernetesVersion { kv_Version : string }.

Record StringSlice : Type := mkStringSlice { Value : list string }.

(** The option bag: one map per option type. *)
Record DriverOptions : Type := mkDriverOptions {
  BoolOptions : gmap string bool;
  StringOptions : gmap string string;
  IntOptions : gmap string Z;
  StringSliceOptions : gmap string StringSlice }.

(** The option-type tags [types.StringType], ... *)
Inductive OptionType : Type :=
| StringType | IntType | BoolType | BoolPointerType | StringSliceType.

End types.

(** A value of type [interface{}], with the dynamic types that occur in the
    driver. *)
Inductive iface : Type :=
| i_nil
| i_string (s : string)
| i_int64 (n : Z)
| i_bool (b : bool)
| i_bool_ptr (p : option bool)
| i_StringSlice_ptr (p : option types.StringSlice).

(** The type assertions [x.(string)], [x.(int64)], [x.(bool)] and
    [x.( *types.StringSlice)]: they panic on another dynamic type. *)
Definition assert_string (x : iface) : option string :=
  match x with i_string s => Some s | _ => None end.
Definition assert_int64 (x : iface) : option Z :=
  match x with i_int64 n => Some n | _ => None end.
Definition assert_bool (x : iface) : option bool :=
  match x with i_bool b => Some b | _ => None end.
Definition assert_StringSlice_ptr (x : iface) : option (option types.StringSlice) :=
  match x with i_StringSlice_ptr p => Some p | _ => None end.

(** The comma-ok assertion [p, _ = x.( *bool)]: never panics, and yields the
    nil pointer on another dynamic type. *)
Definition assert_bool_ptr_ok (x : iface) : option bool :=
  match x with i_bool_ptr p => p | _ => None end.

(** ** The configuration record *)

Record state : Type := mkState {
  DisplayName : string;
  ProjectID : string;
  Zone : string;
  ClusterIpv4Cidr : string;
  Description : string;
  NodeCount : Z;
  MasterVersion : string;
  MasterAuth : option raw.MasterAuth;
  NodeVersion : string;
  Name : string;
  NodeConfig : option raw.NodeConfig;
  CredentialPath : string;
  CredentialContent : string;
  EnableAlphaFeature : bool;
  EnableHTTPLoadBalancing : option bool;
  EnableHorizontalPodAutoscaling : option bool;
  EnableKubernetesDashboard : bool;
  EnableNetworkPolicyConfig : option bool;
  Locations : list string;
  Network : string;
  SubNetwork : string;
  LegacyAbac : bool;
  NodePoolID : string;
  EnableStackdriverLogging : option bool;
  EnableStackdriverMonitoring : option bool;
  MaintenanceWindow : string;
  ClusterInfo : types.ClusterInfo }.

(** [state{}]. *)
Definition state_zero : state :=
  mkState "" "" "" "" "" 0 "" None "" "" None "" "" false None None false None
          [] "" "" false "" None None "" types.ClusterInfo_zero.

(** [(s *state) validate()]. *)
Definition validate (s : state) : option error :=
  if String.eqb (ProjectID s) "" then Some (fmt_Errorf "project ID is required")
  else if String.eqb (Zone s) "" then Some (fmt_Errorf "zone is required")
  else if String.eqb (Name s) "" then Some (fmt_Errorf "cluster name is required")
  else None.

(** The three errors [validate] can return. *)
Definition validation_error (e : error) : Prop :=
  e = "project ID is required" ∨ e = "zone is required" ∨ e = "cluster name is required".

(** The label loop of [getStateFromOpts]: every part that splits on "=" into
    exactly two pieces is stored, a later part overwriting an earlier one
    with the same key. *)
Fixpoint add_labels (labels : gmap string string) (parts : list string) : gmap string string :=
  match parts with
  | [] => labels
  | part :: parts' =>
      match strings_Split part "="%char with
      | [k; v] => add_labels (<[k := v]> labels) parts'
      | _ => add_labels labels parts'
      end
  end.

Section Decode.

(** [options.GetValueFromDriverOptions] of the kontainer-engine library,
    which is not part of this repository: a parameter. *)
Variable GetValueFromDriverOptions :
  types.DriverOptions → types.OptionType → list string → iface.

(** [getStateFromOpts].  [None] is a panic: of a type assertion, or of
    reading [Value] through a nil pointer to a string slice. *)
Definition getStateFromOpts (driverOptions : types.DriverOptions)
  : option (state * option error) :=
  let get := GetValueFromDriverOptions driverOptions in
  d_Name ← assert_string (get types.StringType ["name"]);
  d_DisplayName ← assert_string (get types.StringType ["display-name"; "displayName"]);
  d_ProjectID ← assert_string (get types.StringType ["project-id"; "projectId"]);
  d_Zone ← assert_string (get types.StringType ["zone"]);
  d_NodePoolID ← assert_string (get types.StringType ["nodePool"]);
  d_ClusterIpv4Cidr ← assert_string (get types.StringType ["cluster-ipv4-cidr"; "clusterIpv4Cidr"]);
  d_Description ← assert_string (get types.StringType ["description"]);
  d_MasterVersion ← assert_string (get types.StringType ["master-version"; "masterVersion"]);
  d_NodeVersion ← assert_string (get types.StringType ["node-version"; "nodeVersion"]);
  nc_DiskSizeGb ← assert_int64 (get types.IntType ["disk-size-gb"; "diskSizeGb"]);
  nc_MachineType ← assert_string (get types.StringType ["machine-type"; "machineType"]);
  d_CredentialPath ← assert_string (get types.StringType ["gke-credential-path"]);
  d_CredentialContent ← assert_string (get types.StringType ["credential"]);
  d_EnableAlphaFeature ← assert_bool (get types.BoolType ["enable-alpha-feature"; "enableAlphaFeature"]);
  let d_EnableHorizontalPodAutoscaling :=
    assert_bool_ptr_ok (get types.BoolPointerType ["enableHorizontalPodAutoscaling"]) in
  let d_EnableNetworkPolicyConfig :=
    assert_bool_ptr_ok (get types.BoolPointerType ["enableNetworkPolicyConfig"]) in
  let d_EnableHTTPLoadBalancing :=
    assert_bool_ptr_ok (get types.BoolPointerType ["enable-http-load-balancing"; "enableHttpLoadBalancing"]) in
  d_EnableKubernetesDashboard ← assert_bool (get types.BoolType ["kubernetes-dashboard"; "enableKubernetesDashboard"]);
  nc_ImageType ← assert_string (get types.StringType ["imageType"]);
  d_Network ← assert_string (get types.StringType ["network"]);
  d_SubNetwork ← assert_string (get types.StringType ["subNetwork"]);
  d_LegacyAbac ← assert_bool (get types.BoolType ["legacy-authorization"; "enableLegacyAbac"]);
  locations ← assert_StringSlice_ptr (get types.StringSliceType ["locations"]);
  locations_v ← types.Value <$> locations;
  let d_Locations := foldl (λ acc location, acc ++ [location]) [] locations_v in
  d_NodeCount ← assert_int64 (get types.IntType ["node-count"; "nodeCount"]);
  labelValues ← assert_StringSlice_ptr (get types.StringSliceType ["labels"]);
  labelValues_v ← types.Value <$> labelValues;
  let nc_Labels := add_labels ∅ labelValues_v in
  let d_EnableStackdriverLogging :=
    assert_bool_ptr_ok (get types.BoolPointerType ["enable-stackdriver-logging"; "enableStackdriverLogging"]) in
  let d_EnableStackdriverMonitoring :=
    assert_bool_ptr_ok (get types.BoolPointerType ["enable-stackdriver-monitoring"; "enableStackdriverMonitoring"]) in
  d_MaintenanceWindow ← assert_string (get types.StringType ["maintenance-window"; "maintenanceWindow"]);
  let d :=
    {| DisplayName := d_DisplayName;
       ProjectID := d_ProjectID;
       Zone := d_Zone;
       ClusterIpv4Cidr := d_ClusterIpv4Cidr;
       Description := d_Description;
       NodeCount := d_NodeCount;
       MasterVersion := d_MasterVersion;
       MasterAuth := None;
       NodeVersion := d_NodeVersion;
       Name := d_Name;
       NodeConfig := Some {| raw.DiskSizeGb := nc_DiskSizeGb;
                             raw.MachineType := nc_MachineType;
                             raw.ImageType := nc_ImageType;
                             raw.Labels := Some nc_Labels |};
       CredentialPath := d_CredentialPath;
       CredentialContent := d_CredentialContent;
       EnableAlphaFeature := d_EnableAlphaFeature;
       EnableHTTPLoadBalancing := d_EnableHTTPLoadBalancing;
       EnableHorizontalPodAutoscaling := d_EnableHorizontalPodAutoscaling;
       EnableKubernetesDashboard := d_EnableKubernetesDashboard;
       EnableNetworkPolicyConfig := d_EnableNetworkPolicyConfig;
       Locations := d_Locations;
       Network := d_Network;
       SubNetwork := d_SubNetwork;
       LegacyAbac := d_LegacyAbac;
       NodePoolID := d_NodePoolID;
       EnableStackdriverLogging := d_EnableStackdriverLogging;
       EnableStackdriverMonitoring := d_EnableStackdriverMonitoring;
       MaintenanceWindow := d_MaintenanceWindow;
       ClusterInfo := {| types.Version := ""; types.ServiceAccountToken := "";
                         types.Endpoint := ""; types.Username := "";
                         types.Password := ""; types.RootCaCertificate := "";
                         types.ClientCertificate := ""; types.ClientKey := "";
                         types.NodeCount := 0; types.Metadata := Some ∅ |} |} in
  Some (d, validate d).

(** The library answers a lookup with a value of the dynamic type that was
    asked for (a non-nil pointer for a string slice), so that no type
    assertion of [getStateFromOpts] panics.  Nothing is asked of
    [BoolPointerType], which is read with the comma-ok form. *)
Definition library_typed : Prop :=
  ∀ opts keys,
    (∃ s, GetValueFromDriverOptions opts types.StringType keys = i_string s) ∧
    (∃ n, GetValueFromDriverOptions opts types.IntType keys = i_int64 n) ∧
    (∃ b, GetValueFromDriverOptions opts types.BoolType keys = i_bool b) ∧
    (∃ l, GetValueFromDriverOptions opts types.StringSliceType keys = i_StringSlice_ptr (Some l)).

End Decode.

(** A model of the library function, used to run the decoder on concrete
    option bags: the first key present in the map of the asked type wins, and
    an option absent under every key gives the zero value of the type (a nil
    interface for [BoolPointerType], an empty slice for [StringSliceType]). *)
Fixpoint first_present {V : Type} (m : gmap string V) (keys : list string) : option V :=
  match keys with
  | [] => None
  | key :: keys' =>
      match m !! key with
      | Some value => Some value
      | None => first_present m keys'
      end
  end.

Definition options_GetValueFromDriverOptions
    (driverOptions : types.DriverOptions) (optionType : types.OptionType)
    (keys : list string) : iface :=
  match optionType with
  | types.IntType =>
      i_int64 (default 0 (first_present (types.IntOptions driverOptions) keys))
  | types.StringType =>
      i_string (default "" (first_present (types.StringOptions driverOptions) keys))
  | types.BoolType =>
      i_bool (default false (first_present (types.BoolOptions driverOptions) keys))
  | types.BoolPointerType =>
      match first_present (types.BoolOptions driverOptions) keys with
      | Some value => i_bool_ptr (Some value)
      | None => i_nil
      end
  | types.StringSliceType =>
      i_StringSlice_ptr
        (Some (default (types.mkStringSlice [])
                       (first_present (types.StringSliceOptions driverOptions) keys)))
  end.

(** ** The create-request builder *)

(** [p != nil && !*p]. *)
Definition set_and_false (p : option bool) : bool :=
  match p with
  | Some b => negb b
  | None => false
  end.

Section Builder.

(** [strings.ToLower] of the Go standard library: a parameter. *)
Variable strings_ToLower : string → string.

(** [(d *Driver) generateClusterCreateRequest]. *)
Definition generateClusterCreateRequest (state : state) : raw.CreateClusterRequest :=
  let disableHTTPLoadBalancing := set_and_false (EnableHTTPLoadBalancing state) in
  let disableHorizontalPodAutoscaling := set_and_false (EnableHorizontalPodAutoscaling state) in
  let disableNetworkPolicyConfig := set_and_false (EnableNetworkPolicyConfig state) in
  {| raw.Cluster_ := Some
      {| raw.Name := Name state;
         raw.Zone := Zone state;
         raw.InitialClusterVersion := MasterVersion state;
         raw.InitialNodeCount := NodeCount state;
         raw.ClusterIpv4Cidr := ClusterIpv4Cidr state;
         raw.Description := Description state;
         raw.EnableKubernetesAlpha := EnableAlphaFeature state;
         raw.AddonsConfig_ := Some
           {| raw.HttpLoadBalancing_ :=
                Some {| raw.hlb_Disabled := disableHTTPLoadBalancing |};
              raw.HorizontalPodAutoscaling_ :=
                Some {| raw.hpa_Disabled := disableHorizontalPodAutoscaling |};
              raw.KubernetesDashboard_ :=
                Some {| raw.kd_Disabled := negb (EnableKubernetesDashboard state) |};
              raw.NetworkPolicyConfig_ :=
                Some {| raw.npc_Disabled := disableNetworkPolicyConfig |} |};
         raw.Network := Network state;
         raw.Subnetwork := SubNetwork state;
         raw.LegacyAbac_ := Some {| raw.Enabled := LegacyAbac state |};
         raw.MasterAuth_ := Some {| raw.Username := "admin"; raw.Password := "";
                                    raw.ClusterCaCertificate := "" |};
         raw.NodeConfig_ := NodeConfig state;
         raw.ResourceLabels :=
           Some {[ "display-name" := strings_ToLower (DisplayName state) ]};
         raw.LoggingService :=
           if set_and_false (EnableStackdriverLogging state) then none else "";
         raw.MonitoringService :=
           if set_and_false (EnableStackdriverMonitoring state) then none else "";
         raw.MaintenancePolicy_ :=
           if nonempty (MaintenanceWindow state) then
             Some {| raw.Window := Some
               {| raw.DailyMaintenanceWindow_ := Some
                 {| raw.StartTime := MaintenanceWindow state |} |} |}
           else None;
         raw.Status := "";
         raw.Endpoint := "" |} |}.

End Builder.

(** ** The state codec over the cluster-info metadata *)

(** [m[key]] on a possibly nil map: a missing key reads as the empty
    string. *)
Definition map_index (m : option (gmap string string)) (key : string) : string :=
  default "" (m ≫= (.!! key)).

Definition set_Metadata (info : types.ClusterInfo) (m : option (gmap string string))
  : types.ClusterInfo :=
  {| types.Version := types.Version info;
     types.ServiceAccountToken := types.ServiceAccountToken info;
     types.Endpoint := types.Endpoint info;
     types.Username := types.Username info;
     types.Password := types.Password info;
     types.RootCaCertificate := types.RootCaCertificate info;
     types.ClientCertificate := types.ClientCertificate info;
     types.ClientKey := types.ClientKey info;
     types.NodeCount := types.NodeCount info;
     types.Metadata := m |}.

Section Codec.

(** [json.Marshal] and [json.Unmarshal] of the Go standard library, at the
    type [state]: parameters.  [json_Unmarshal data v] decodes [data] into
    the record [v] and gives the record after the call. *)
Variable json_Marshal : state → string + error.
Variable json_Unmarshal : string → state → state * option error.

(** [storeState]; the cluster-info record is updated in place, so the
    record after the call is given with the error. *)
Definition storeState (info : types.ClusterInfo) (state : state)
  : types.ClusterInfo * option error :=
  match json_Marshal state with
  | inr err => (info, Some err)
  | inl bytes =>
      let metadata :=
        match types.Metadata info with
        | None => ∅
        | Some m => m
        end in
      let metadata := <["state" := bytes]> metadata in
      let metadata := <["project-id" := ProjectID state]> metadata in
      let metadata := <["zone" := Zone state]> metadata in
      (set_Metadata info (Some metadata), None)
  end.

(** [getState]. *)
Definition getState (info : types.ClusterInfo) : state * option error :=
  json_Unmarshal (map_index (types.Metadata info) "state") state_zero.

End Codec.

(** ** The environment of the driver

    Every call the driver makes outside its own code is recorded as an
    [event]; the [trace] of a [World] holds the events so far, the latest
    first. *)

Inductive event : Type :=
| EvClustersGet (project zone name : string)
| EvNodePoolsGet (project zone name nodePoolID : string)
| EvClustersDelete (project zone name : string)
| EvClustersUpdate (project zone name desiredMasterVersion : string)
| EvNodePoolsUpdate (project zone name nodePoolID nodeVersion : string)
| EvNodePoolsSetSize (project zone name nodePoolID : string) (nodeCount : Z)
| EvInfof (format : string) (args : list string)
| EvSleep (duration : Z)
| EvLock
| EvUnlock
| EvSetenv (key value : string)
| EvUnsetenv (key : string)
| EvTempFile (dir pattern : string)
| EvCopy (name content : string)
| EvClose (name : string)
| EvRemove (name : string)
| EvDefaultTokenSource (credentials : option string)
| EvNewClient
| EvNew.

(** The world the driver runs in: the answers the provider will give to the
    coming [Clusters.Get] calls, to the coming [NodePools.Get] calls and to
    the coming calls that start an operation (delete, update, set size), the
    process environment, the process-wide [EnvMutex] ([true] when held), and
    the trace. *)
Record World : Type := mkWorld {
  clusters : list (raw.Cluster + error);
  nodepools : list (raw.NodePool + error);
  operations : list (raw.Operation + error);
  env : gmap string string;
  EnvMutex : bool;
  trace : list event }.

Definition record_event (e : event) (w : World) : World :=
  mkWorld (clusters w) (nodepools w) (operations w) (env w) (EnvMutex w) (e :: trace w).
Definition set_clusters (l : list (raw.Cluster + error)) (w : World) : World :=
  mkWorld l (nodepools w) (operations w) (env w) (EnvMutex w) (trace w).
Definition set_nodepools (l : list (raw.NodePool + error)) (w : World) : World :=
  mkWorld (clusters w) l (operations w) (env w) (EnvMutex w) (trace w).
Definition set_operations (l : list (raw.Operation + error)) (w : World) : World :=
  mkWorld (clusters w) (nodepools w) l (env w) (EnvMutex w) (trace w).
Definition set_env (m : gmap string string) (w : World) : World :=
  mkWorld (clusters w) (nodepools w) (operations w) m (EnvMutex w) (trace w).
Definition set_EnvMutex (b : bool) (w : World) : World :=
  mkWorld (clusters w) (nodepools w) (operations w) (env w) b (trace w).

(** [ev] are the events between the worlds [w] and [w'], in the order they
    happened. *)
Definition events_between (w w' : World) (ev : list event) : Prop :=
  trace w' = rev ev ++ trace w.

(** ** The provider API, logging and sleeping as interaction-tree events *)

Variant driverE : Type → Type :=
| Clusters_Get (project zone name : string) : driverE (raw.Cluster + error)
| NodePools_Get (project zone name nodePoolID : string) : driverE (raw.NodePool + error)
| Clusters_Delete (project zone name : string) : driverE (raw.Operation + error)
| Clusters_Update (project zone name desiredMasterVersion : string)
  : driverE (raw.Operation + error)
| NodePools_Update (project zone name nodePoolID nodeVersion : string)
  : driverE (raw.Operation + error)
| NodePools_SetSize (project zone name nodePoolID : string) (nodeCount : Z)
  : driverE (raw.Operation + error)
| log_Infof (format : string) (args : list string) : driverE unit
| time_Sleep (duration : Z) : driverE unit.

(** The next answer of a script; a call for which the provider has no answer
    never returns. *)
Definition answer {A : Type} (e : event) (script : list A)
    (rest : list A → World → World) (w : World) : itree void1 (World * A) :=
  match script with
  | [] => ITree.spin
  | a :: script' => Ret (rest script' (record_event e w), a)
  end.

(** The meaning of the events in a [World]. *)
Definition handle : driverE ~> Monads.stateT World (itree void1) :=
  fun T (e : driverE T) (w : World) =>
    match e in driverE T return itree void1 (World * T) with
    | Clusters_Get p z n =>
        answer (EvClustersGet p z n) (clusters w) set_clusters w
    | NodePools_Get p z n np =>
        answer (EvNodePoolsGet p z n np) (nodepools w) set_nodepools w
    | Clusters_Delete p z n =>
        answer (EvClustersDelete p z n) (operations w) set_operations w
    | Clusters_Update p z n v =>
        answer (EvClustersUpdate p z n v) (operations w) set_operations w
    | NodePools_Update p z n np v =>
        answer (EvNodePoolsUpdate p z n np v) (operations w) set_operations w
    | NodePools_SetSize p z n np c =>
        answer (EvNodePoolsSetSize p z n np c) (operations w) set_operations w
    | log_Infof format args => Ret (record_event (EvInfof format args) w, tt)
    | time_Sleep d => Ret (record_event (EvSleep d) w, tt)
    end.

(** The run of a driver program in a world. *)
Definition run {R : Type} (t : itree driverE R) (w : World) : itree void1 (World * R) :=
  interp_state handle t w.

#[local] Instance itree_mbind {E : Type → Type} : MBind (itree E) :=
  λ A B f t, ITree.bind t f.

(** [time.Second], in nanoseconds. *)
Definition time_Second : Z := 1000000000.

(** ** The polling loops *)

Section Wait.

Variable strings_ToLower : string → string.

(** [(d *Driver) waitCluster]: the body of the [for] loop, from [lastMsg]
    to either the next [lastMsg] or the returned error, and the loop
    itself, which starts from the empty [lastMsg]. *)
Definition waitCluster_iteration (state : state) (lastMsg : string)
  : itree driverE (string + option error) :=
  r ← ITree.trigger (Clusters_Get (ProjectID state) (Zone state) (Name state));
  match r with
  | inr err => Ret (inr (Some err))
  | inl cluster =>
      if String.eqb (raw.Status cluster) runningStatus then
        ITree.trigger (log_Infof "Cluster %v is running" [Name state]);;
        Ret (inr None)
      else
        lastMsg ←
          (if negb (String.eqb (raw.Status cluster) lastMsg) then
             ITree.trigger (log_Infof "%v cluster %v......"
               [strings_ToLower (raw.Status cluster); Name state]);;
             Ret (raw.Status cluster)
           else Ret lastMsg);
        ITree.trigger (time_Sleep (time_Second * 5));;
        Ret (inl lastMsg)
  end.

Definition waitCluster (state : state) : itree driverE (option error) :=
  ITree.iter (waitCluster_iteration state) "".

(** [(d *Driver) waitNodePool]. *)
Definition waitNodePool_iteration (state : state) (lastMsg : string)
  : itree driverE (string + option error) :=
  r ← ITree.trigger (NodePools_Get (ProjectID state) (Zone state) (Name state)
                                   (NodePoolID state));
  match r with
  | inr err => Ret (inr (Some err))
  | inl nodepool =>
      if String.eqb (raw.np_Status nodepool) runningStatus then
        ITree.trigger (log_Infof "Nodepool %v is running" [Name state]);;
        Ret (inr None)
      else
        lastMsg ←
          (if negb (String.eqb (raw.np_Status nodepool) lastMsg) then
             ITree.trigger (log_Infof "%v nodepool %v......"
               [strings_ToLower (raw.np_Status nodepool); NodePoolID state]);;
             Ret (raw.np_Status nodepool)
           else Ret lastMsg);
        ITree.trigger (time_Sleep (time_Second * 5));;
        Ret (inl lastMsg)
  end.

Definition waitNodePool (state : state) : itree driverE (option error) :=
  ITree.iter (waitNodePool_iteration state) "".

End Wait.

(** ** The credential resolver

    [getServiceClient] is straight-line code with early returns, deferred
    calls and two local variables that the closure [cleanup] shares with the
    body.  It is modelled in a state monad over a [frame]: the world, the two
    locals and the stack of deferred calls. *)

Record os_File : Type := mkFile { file_Name : string }.
Record oauth2_TokenSource : Type := mkTokenSource { credentials_used : option string }.
Record http_Client : Type := mkClient { source : oauth2_TokenSource }.

(** What the calls outside the driver answer: [ioutil.TempFile], [io.Copy],
    [google.DefaultTokenSource] (which reads the credential variable of the
    environment) and [raw.New]. *)
Record Externals : Type := mkExternals {
  ioutil_TempFile_result : os_File + error;
  io_Copy_result : option error;
  google_DefaultTokenSource_result : option string → oauth2_TokenSource + error;
  raw_New_result : http_Client → raw.Service + error }.

Inductive deferred_call : Type :=
| defer_cleanup
| defer_os_Remove (name : string)
| defer_file_Close (file : os_File).

Record frame : Type := mkFrame {
  world : World;
  locked : bool;
  setEnv : bool;
  deferred : list deferred_call }.

(** A call that cannot go on: [Lock] on a mutex that is held (nothing else
    runs in this model, so it waits for ever), or the fatal error of the Go
    run time on [Unlock] of a mutex that is not held. *)
Inductive abort : Type :=
| Deadlock
| Fatal (msg : string).

(** How a statement ends: control goes on with a value, the function
    returns, or the call aborts. *)
Inductive flow (R A : Type) : Type :=
| Next (a : A)
| Return_ (r : R)
| Abort (x : abort).
Arguments Next {R A} a.
Arguments Return_ {R A} r.
Arguments Abort {R A} x.

Definition proc (R A : Type) : Type := frame → flow R A * frame.

#[local] Instance proc_mret {R : Type} : MRet (proc R) :=
  λ A a f, (Next a, f).

#[local] Instance proc_mbind {R : Type} : MBind (proc R) :=
  λ A B k m f,
    match m f with
    | (Next a, f') => k a f'
    | (Return_ r, f') => (Return_ r, f')
    | (Abort x, f') => (Abort x, f')
    end.

Definition return_ {R A : Type} (r : R) : proc R A := λ f, (Return_ r, f).

Definition on_world {R : Type} (g : World → World) : proc R unit :=
  λ f, (Next tt, mkFrame (g (world f)) (locked f) (setEnv f) (deferred f)).

Definition effect {R : Type} (e : event) : proc R unit := on_world (record_event e).

Definition read_env {R : Type} (key : string) : proc R (option string) :=
  λ f, (Next (env (world f) !! key), f).

Definition read_locked {R : Type} : proc R bool := λ f, (Next (locked f), f).
Definition read_setEnv {R : Type} : proc R bool := λ f, (Next (setEnv f), f).
Definition assign_locked {R : Type} (b : bool) : proc R unit :=
  λ f, (Next tt, mkFrame (world f) b (setEnv f) (deferred f)).
Definition assign_setEnv {R : Type} (b : bool) : proc R unit :=
  λ f, (Next tt, mkFrame (world f) (locked f) b (deferred f)).

(** [defer]: the call is pushed; the stack is run from its top when the
    function returns. *)
Definition defer {R : Type} (d : deferred_call) : proc R unit :=
  λ f, (Next tt, mkFrame (world f) (locked f) (setEnv f) (d :: deferred f)).

Definition EnvMutex_Lock {R : Type} : proc R unit :=
  λ f, if EnvMutex (world f) then (Abort Deadlock, f)
       else on_world (λ w, record_event EvLock (set_EnvMutex true w)) f.

Definition EnvMutex_Unlock {R : Type} : proc R unit :=
  λ f, if EnvMutex (world f)
       then on_world (λ w, record_event EvUnlock (set_EnvMutex false w)) f
       else (Abort (Fatal "sync: unlock of unlocked mutex"), f).

Definition os_Setenv {R : Type} (key value : string) : proc R unit :=
  on_world (λ w, record_event (EvSetenv key value) (set_env (<[key := value]> (env w)) w)).

Definition os_Unsetenv {R : Type} (key : string) : proc R unit :=
  on_world (λ w, record_event (EvUnsetenv key) (set_env (delete key (env w)) w)).

(** The closure [cleanup] of [getServiceClient]. *)
Definition cleanup {R : Type} : proc R unit :=
  setEnv ← read_setEnv;
  (if setEnv : bool then os_Unsetenv defaultCredentialEnv else mret tt);;
  locked ← read_locked;
  if locked : bool then
    EnvMutex_Unlock;;
    assign_locked false
  else mret tt.

Definition call_deferred (d : deferred_call) : proc Empty_set unit :=
  match d with
  | defer_cleanup => cleanup
  | defer_os_Remove name => effect (EvRemove name)
  | defer_file_Close file => effect (EvClose (file_Name file))
  end.

Fixpoint run_deferred (ds : list deferred_call) (f : frame) : option abort * frame :=
  match ds with
  | [] => (None, f)
  | d :: ds' =>
      match call_deferred d (mkFrame (world f) (locked f) (setEnv f) ds') with
      | (Abort x, f') => (Some x, f')
      | (_, f') => run_deferred ds' f'
      end
  end.

(** The result of a call: the returned values, or an abort. *)
Inductive outcome (R : Type) : Type :=
| Done (r : R)
| Aborted (x : abort).
Arguments Done {R} r.
Arguments Aborted {R} x.

(** A function call: the body runs in a fresh frame until it returns, then
    the deferred calls run, the last deferred first. *)
Definition call {R : Type} (body : proc R Empty_set) (w : World) : outcome R * World :=
  match body (mkFrame w false false []) with
  | (Next a, _) => match a with end
  | (Abort x, f) => (Aborted x, world f)
  | (Return_ r, f) =>
      match run_deferred (deferred f) f with
      | (Some x, f') => (Aborted x, world f')
      | (None, f') => (Done r, world f')
      end
  end.

Section Resolver.

Variable ext : Externals.

Definition ioutil_TempFile {R : Type} (dir pattern : string) : proc R (os_File + error) :=
  effect (EvTempFile dir pattern);;
  mret (ioutil_TempFile_result ext).

Definition io_Copy {R : Type} (file : os_File) (content : string) : proc R (option error) :=
  effect (EvCopy (file_Name file) content);;
  mret (io_Copy_result ext).

Definition google_DefaultTokenSource {R : Type} : proc R (oauth2_TokenSource + error) :=
  credentials ← read_env defaultCredentialEnv;
  effect (EvDefaultTokenSource credentials);;
  mret (google_DefaultTokenSource_result ext credentials).

Definition oauth2_NewClient {R : Type} (ts : oauth2_TokenSource) : proc R http_Client :=
  effect EvNewClient;;
  mret (mkClient ts).

Definition raw_New {R : Type} (client : http_Client) : proc R (raw.Service + error) :=
  effect EvNew;;
  mret (raw_New_result ext client).

(** [(d *Driver) getServiceClient]. *)
Definition getServiceClient (state : state)
  : World → outcome (option raw.Service * option error) * World :=
  call (
    EnvMutex_Lock;;
    assign_locked true;;
    assign_setEnv false;;
    defer defer_cleanup;;
    (if nonempty (CredentialPath state) then
       assign_setEnv true;;
       os_Setenv defaultCredentialEnv (CredentialPath state)
     else mret tt);;
    (if nonempty (CredentialContent state) then
       r ← ioutil_TempFile "" "credential-file";
       match r with
       | inr err => return_ (None, Some err)
       | inl file =>
           defer (defer_os_Remove (file_Name file));;
           defer (defer_file_Close file);;
           err ← io_Copy file (CredentialContent state);
           match err with
           | Some err => return_ (None, Some err)
           | None =>
               assign_setEnv true;;
               os_Setenv defaultCredentialEnv (file_Name file)
           end
       end
     else mret tt);;
    r ← google_DefaultTokenSource;
    match r with
    | inr err => return_ (None, Some err)
    | inl ts =>
        cleanup;;
        client ← oauth2_NewClient ts;
        r ← raw_New client;
        match r with
        | inr err => return_ (None, Some err)
        | inl service => return_ (Some service, None)
        end
    end).

End Resolver.

(** ** The lifecycle operations

    The bodies of these eight operations are commented out in the source;
    what is left of each is its last line, a [return] of constants.  A
    pointer argument is an [option]: the caller may pass [nil]. *)

(** [(d *Driver) Create]. *)
Definition Create (opts : option types.DriverOptions) (info : option types.ClusterInfo)
  : itree driverE (option types.ClusterInfo * option error) :=
  Ret (Some types.ClusterInfo_zero, None).

(** [(d *Driver) Update]. *)
Definition Update (info : option types.ClusterInfo) (opts : option types.DriverOptions)
  : itree driverE (option types.ClusterInfo * option error) :=
  Ret (Some types.ClusterInfo_zero, None).

(** [(d *Driver) PostCheck]. *)
Definition PostCheck (info : option types.ClusterInfo)
  : itree driverE (option types.ClusterInfo * option error) :=
  Ret (Some types.ClusterInfo_zero, None).

(** [(d *Driver) Remove]. *)
Definition Remove (info : option types.ClusterInfo) : itree driverE (option error) :=
  Ret None.

(** [(d *Driver) GetClusterSize]. *)
Definition GetClusterSize (info : option types.ClusterInfo)
  : itree driverE (option types.NodeCount_ * option error) :=
  Ret (Some {| types.Count := 0 |}, None).

(** [(d *Driver) GetVersion]. *)
Definition GetVersion (info : option types.ClusterInfo)
  : itree driverE (option types.KubernetesVersion * option error) :=
  Ret (Some {| types.kv_Version := "" |}, None).

(** [(d *Driver) SetClusterSize]. *)
Definition SetClusterSize (info : option types.ClusterInfo) (count : option types.NodeCount_)
  : itree driverE (option error) :=
  Ret None.

(** [(d *Driver) SetVersion]. *)
Definition SetVersion (info : option types.ClusterInfo)
    (version : option types.KubernetesVersion) : itree driverE (option error) :=
  Ret None.

(** ** Vocabulary of the specification *)

(** The effective value of a tri-state toggle: unset counts as enabled. *)
Definition effective (toggle : option bool) : bool := default true toggle.

(** The value of each maximal run of consecutive equal elements. *)
Fixpoint runs (l : list string) : list string :=
  match l with
  | [] => []
  | x :: l' =>
      match l' with
      | y :: _ => if String.eqb x y then runs l' else x :: runs l'
      | [] => [x]
      end
  end.

(** The events of the polls that found the statuses [statuses], none of them
    terminal, when the status of the poll before was [lastMsg]: a fetch, the
    progress notification if the status changed, and a sleep, per poll. *)
Fixpoint polled (get : event) (progress : string → event) (lastMsg : string)
    (statuses : list string) : list event :=
  match statuses with
  | [] => []
  | s :: statuses' =>
      get :: (if negb (String.eqb s lastMsg) then [progress s] else [])
          ++ EvSleep (time_Second * 5) :: polled get progress s statuses'
  end.

(** The events of the two polling loops: the fetch, the progress
    notification of a status, and the notification of the terminal status. *)
Definition cluster_fetch (st : state) : event :=
  EvClustersGet (ProjectID st) (Zone st) (Name st).
Definition cluster_progress (strings_ToLower : string → string) (st : state) (s : string)
  : event :=
  EvInfof "%v cluster %v......" [strings_ToLower s; Name st].
Definition cluster_running (st : state) : event :=
  EvInfof "Cluster %v is running" [Name st].
Definition nodepool_fetch (st : state) : event :=
  EvNodePoolsGet (ProjectID st) (Zone st) (Name st) (NodePoolID st).
Definition nodepool_progress (strings_ToLower : string → string) (st : state) (s : string)
  : event :=
  EvInfof "%v nodepool %v......" [strings_ToLower s; NodePoolID st].
Definition nodepool_running (st : state) : event :=
  EvInfof "Nodepool %v is running" [Name st].

(** The world [w] after the events [ev]. *)
Definition after (w : World) (ev : list event) : World :=
  mkWorld (clusters w) (nodepools w) (operations w) (env w) (EnvMutex w)
          (rev ev ++ trace w).

(** The status of the latest poll. *)
Definition last_status (lastMsg : string) (statuses : list string) : string :=
  List.last statuses lastMsg.

(** The progress notifications in a list of events: the first argument of
    every [Infof] with the given progress format. *)
Definition progress_notifications (format : string) (ev : list event) : list string :=
  omap (λ e, match e with
             | EvInfof f (s :: _) => if String.eqb f format then Some s else None
             | _ => None
             end) ev.

Definition is_sleep (e : event) : bool :=
  match e with EvSleep _ => true | _ => false end.
Definition is_fetch (e : event) : bool :=
  match e with EvClustersGet _ _ _ | EvNodePoolsGet _ _ _ _ => true | _ => false end.
Definition is_infof (e : event) : bool :=
  match e with EvInfof _ _ => true | _ => false end.
Definition is_lock (e : event) : bool :=
  match e with EvLock => true | _ => false end.
Definition is_unlock (e : event) : bool :=
  match e with EvUnlock => true | _ => false end.
Definition is_setenv (e : event) : bool :=
  match e with EvSetenv key _ => String.eqb key defaultCredentialEnv | _ => false end.
Definition is_unsetenv (e : event) : bool :=
  match e with EvUnsetenv key => String.eqb key defaultCredentialEnv | _ => false end.
Definition is_client (e : event) : bool :=
  match e with EvNewClient | EvNew => true | _ => false end.

Definition count (p : event → bool) (ev : list event) : nat :=
  length (List.filter p ev).

(** The events before the authenticated client is constructed: those before
    the first [oauth2.NewClient] or [raw.New]. *)
Fixpoint before_client (ev : list event) : list event :=
  match ev with
  | [] => []
  | e :: ev' => if is_client e then [] else e :: before_client ev'
  end.

(** Whether the credential variable is left set by a list of events: the
    latest [Setenv] or [Unsetenv] of the variable decides. *)
Definition variable_set (ev : list event) : bool :=
  foldl (λ is_set e, if is_setenv e then true
                     else if is_unsetenv e then false else is_set) false ev.

(** The three sub-operations of an update, and the ones a list of events
    performs. *)
Inductive sub_operation : Type :=
| MasterVersionUpdate
| NodeVersionUpdate
| NodeCountUpdate.

Definition sub_operations (ev : list event) : list sub_operation :=
  omap (λ e, match e with
             | EvClustersUpdate _ _ _ _ => Some MasterVersionUpdate
             | EvNodePoolsUpdate _ _ _ _ _ => Some NodeVersionUpdate
             | EvNodePoolsSetSize _ _ _ _ _ => Some NodeCountUpdate
             | _ => None
             end) ev.

(** The sub-operations the specification asks of [Update] for a newly decoded
    record: each one whose value is non-empty or non-zero, in this order. *)
Definition requested_sub_operations (newState : state) : list sub_operation :=
  (if nonempty (MasterVersion newState) then [MasterVersionUpdate] else []) ++
  (if nonempty (NodeVersion newState) then [NodeVersionUpdate] else []) ++
  (if negb (Z.eqb (NodeCount newState) 0) then [NodeCountUpdate] else []).

(** ** Sample inputs *)

(** A lower-casing of the ASCII letters, for the runs on concrete inputs;
    on ASCII strings it is what [strings.ToLower] computes. *)
Definition ascii_ToLower_byte (a : ascii) : ascii :=
  let n := N_of_ascii a in
  if (65 <=? n)%N && (n <=? 90)%N then ascii_of_N (n + 32) else a.

Fixpoint ascii_ToLower (s : string) : string :=
  match s with
  | EmptyString => EmptyString
  | String a s' => String (ascii_ToLower_byte a) (ascii_ToLower s')
  end.

(** The option bag of the end-to-end scenario of the specification. *)
Definition scenario_options : types.DriverOptions :=
  {| types.BoolOptions := ∅;
     types.StringOptions := {[ "name" := "c1"; "project-id" := "p1"; "zone" := "z1" ]};
     types.IntOptions := {[ "node-count" := 3 ]};
     types.StringSliceOptions := ∅ |}.

(** The record that bag decodes to. *)
Definition scenario_state : state :=
  {| DisplayName := ""; ProjectID := "p1"; Zone := "z1"; ClusterIpv4Cidr := "";
     Description := ""; NodeCount := 3; MasterVersion := ""; MasterAuth := None;
     NodeVersion := ""; Name := "c1";
     NodeConfig := Some {| raw.DiskSizeGb := 0; raw.MachineType := "";
                           raw.ImageType := ""; raw.Labels := Some ∅ |};
     CredentialPath := ""; CredentialContent := ""; EnableAlphaFeature := false;
     EnableHTTPLoadBalancing := None; EnableHorizontalPodAutoscaling := None;
     EnableKubernetesDashboard := false; EnableNetworkPolicyConfig := None;
     Locations := []; Network := ""; SubNetwork := ""; LegacyAbac := false;
     NodePoolID := ""; EnableStackdriverLogging := None;
     EnableStackdriverMonitoring := None; MaintenanceWindow := "";
     ClusterInfo := set_Metadata types.ClusterInfo_zero (Some ∅) |}.

(** A cluster and a node pool of which only the status is known. *)
Definition cluster_in (status : string) : raw.Cluster :=
  raw.mkCluster "c1" "z1" "" 3 "" "" false None "" "" None None None None "" "" None status "".
Definition nodepool_in (status : string) : raw.NodePool :=
  raw.mkNodePool "default-pool" status.

(** A world whose provider answers the given fetches, and in which nothing
    has happened yet. *)
Definition world_answering (cs : list (raw.Cluster + error))
    (nps : list (raw.NodePool + error)) (ops : list (raw.Operation + error)) : World :=
  mkWorld cs nps ops ∅ false [].

(** The calls outside the driver all succeed: the temporary file is
    [/tmp/credential-file123], and the token source remembers the credential
    file it was pointed to. *)
Definition externals_ok : Externals :=
  {| ioutil_TempFile_result := inl (mkFile "/tmp/credential-file123");
     io_Copy_result := None;
     google_DefaultTokenSource_result := λ credentials, inl (mkTokenSource credentials);
     raw_New_result := λ _, inl (raw.mkService "https://container.googleapis.com/") |}.

(** A record with an inline credential. *)
Definition credential_state : state :=
  mkState "" "p1" "z1" "" "" 3 "" None "" "c1" None "" "{}" false None None false None
          [] "" "" false "" None None "" types.ClusterInfo_zero.

(** An option bag that asks for a new master version, a new node version and
    a new node count. *)
Definition update_options : types.DriverOptions :=
  {| types.BoolOptions := ∅;
     types.StringOptions :=
       {[ "name" := "c1"; "project-id" := "p1"; "zone" := "z1";
          "master-version" := "1.11.2-gke.18"; "node-version" := "1.11.2-gke.18" ]};
     types.IntOptions := {[ "node-count" := 5 ]};
     types.StringSliceOptions := ∅ |}.

(** The record that bag decodes to. *)
Definition update_state : state :=
  {| DisplayName := ""; ProjectID := "p1"; Zone := "z1"; ClusterIpv4Cidr := "";
     Description := ""; NodeCount := 5; MasterVersion := "1.11.2-gke.18";
     MasterAuth := None; NodeVersion := "1.11.2-gke.18"; Name := "c1";
     NodeConfig := Some {| raw.DiskSizeGb := 0; raw.MachineType := "";
                           raw.ImageType := ""; raw.Labels := Some ∅ |};
     CredentialPath := ""; CredentialContent := ""; EnableAlphaFeature := false;
     EnableHTTPLoadBalancing := None; EnableHorizontalPodAutoscaling := None;
     EnableKubernetesDashboard := false; EnableNetworkPolicyConfig := None;
     Locations := []; Network := ""; SubNetwork := ""; LegacyAbac := false;
     NodePoolID := ""; EnableStackdriverLogging := None;
     EnableStackdriverMonitoring := None; MaintenanceWindow := "";
     ClusterInfo := set_Metadata types.ClusterInfo_zero (Some ∅) |}.

(** An option bag with nothing in it, and a cluster-info record whose stored
    state is not JSON. *)
Definition empty_options : types.DriverOptions :=
  {| types.BoolOptions := ∅; types.StringOptions := ∅;
     types.IntOptions := ∅; types.StringSliceOptions := ∅ |}.

Definition corrupt_info : types.ClusterInfo :=
  set_Metadata types.ClusterInfo_zero
    (Some {[ "state" := "{not json"; "project-id" := "p1"; "zone" := "z1" ]}).

(** ** The remaining functions of the driver *)

(** *** The service-account token *)

(** [rest.Config], with the fields the driver sets. *)
Record rest_TLSClientConfig : Type := mkTLSClientConfig { CAData : string }.
Record rest_Config : Type := mkConfig {
  Host : string;
  TLSClientConfig : rest_TLSClientConfig;
  cfg_Username : string;
  cfg_Password : string }.

Section Token.

(** The Kubernetes client set, [base64.StdEncoding.DecodeString],
    [kubernetes.NewForConfig] and [util.GenerateServiceAccountToken]:
    parameters. *)
Variable Clientset : Type.
Variable base64_DecodeString : string → string + error.
Variable kubernetes_NewForConfig : rest_Config → Clientset + error.
Variable util_GenerateServiceAccountToken : Clientset → string * option error.

(** [generateServiceAccountTokenForGke].  [None] is the panic of reading
    through a nil [MasterAuth]. *)
Definition generateServiceAccountTokenForGke (cluster : raw.Cluster)
  : option (string * option error) :=
  auth ← raw.MasterAuth_ cluster;
  match base64_DecodeString (raw.ClusterCaCertificate auth) with
  | inr err => Some ("", Some err)
  | inl capem =>
      let host := raw.Endpoint cluster in
      let host :=
        if negb (strings_HasPrefix host "https://") then "https://" +:+ host else host in
      let config :=
        {| Host := host;
           TLSClientConfig := {| CAData := capem |};
           cfg_Username := raw.Username auth;
           cfg_Password := raw.Password auth |} in
      match kubernetes_NewForConfig config with
      | inr err => Some ("", Some err)
      | inl clientset => Some (util_GenerateServiceAccountToken clientset)
      end
  end.

End Token.

(** *** The declared options *)

(** [types.Default], [types.Flag] and [types.DriverFlags], with the fields the
    driver sets. *)
Record types_Default : Type := mkDefault {
  DefaultBool : bool;
  DefaultString : string;
  DefaultInt : Z }.

Record types_Flag : Type := mkFlag {
  flag_Type : types.OptionType;
  flag_Usage : string;
  flag_Default : option types_Default }.

Record types_DriverFlags : Type := mkDriverFlags {
  Options : gmap string types_Flag }.

(** [(d *Driver) GetDriverCreateOptions]: the map of options its statements
    build, in their order, and the function, which returns the map and no
    error. *)
Definition declared_create_options : gmap string types_Flag :=
  let options : gmap string types_Flag := ∅ in
  let options := <["name" :=
    mkFlag types.StringType "the internal name of the cluster in Rancher" None]> options in
  let options := <["display-name" :=
    mkFlag types.StringType "the name of the cluster that should be displayed to the user"
           None]> options in
  let options := <["disable-rollback" :=
    mkFlag types.BoolType "失败是否回滚" None]> options in
  let options := <["cluster-type" :=
    mkFlag types.StringType "集群类型,Kubernetes或ManagedKubernetes"
           (Some (mkDefault false "ManagedKubernetes" 0))]> options in
  let options := <["timeout-mins" :=
    mkFlag types.IntType "集群资源栈创建超时时间，以分钟为单位，默认值 60分钟" None]> options in
  let options := <["region-id" :=
    mkFlag types.StringType "集群所在地域ID" None]> options in
  let options := <["zone-id" :=
    mkFlag types.StringType "所属地域的可用区" None]> options in
  let options := <["vpc-id" :=
    mkFlag types.StringType "VPC ID，可空。如果不设置，系统会自动创建VPC，系统创建的VPC网段为192.168.0.0/16。 VpcId 和 vswitchid 只能同时为空或者同时都设置相应的值" None]> options in
  let options := <["vswitch-id" :=
    mkFlag types.StringType "交换机ID，可空。若不设置，系统会自动创建交换机，系统自定创建的交换机网段为 192.168.0.0/16" None]> options in
  let options := <["container-cidr" :=
    mkFlag types.StringType "容器网段，不能和VPC网段冲突。当选择系统自动创建VPC时，默认使用172.16.0.0/16网段" None]> options in
  let options := <["service-cidr" :=
    mkFlag types.StringType "服务网段，不能和VPC网段以及容器网段冲突。当选择系统自动创建VPC时，默认使用172.19.0.0/20网段" None]> options in
  let options := <["worker-instance-charge-type" :=
    mkFlag types.StringType "Worker节点付费类型，可选值为：PrePaid: 预付费; PostPaid: 按量付费"
           (Some (mkDefault false "PostPaid" 0))]> options in
  let options := <["worker-period-unit" :=
    mkFlag types.StringType "当指定为PrePaid的时候需要指定周期,Week或Month" None]> options in
  let options := <["worker-period" :=
    mkFlag types.IntType "包年包月时长" None]> options in
  let options := <["worker-auto-renew" :=
    mkFlag types.BoolPointerType "是否开启Worker节点自动续费" None]> options in
  let options := <["worker-auto-renew-period" :=
    mkFlag types.IntType "自动续费周期" None]> options in
  let options := <["worker-data-disk" :=
    mkFlag types.BoolType "是否挂载数据盘" None]> options in
  let options := <["worker-data-disk-category" :=
    mkFlag types.StringType "数据盘类型" None]> options in
  let options := <["worker-data-disk-size" :=
    mkFlag types.IntType "数据盘大小" None]> options in
  let options := <["worker-instance-type" :=
    mkFlag types.StringType "Worker 节点 ECS 规格类型代码" None]> options in
  let options := <["worker-system-disk-category" :=
    mkFlag types.StringType "Worker节点系统盘类型" None]> options in
  let options := <["worker-system-disk-size" :=
    mkFlag types.IntType "Worker节点系统盘大小" None]> options in
  let options := <["login-password" :=
    mkFlag types.BoolType "SSH登录密码。密码规则为8 - 30 个字符，且同时包含三项（大、小写字母，数字和特殊符号）。和key_pair 二选一" None]> options in
  let options := <["login_password" :=
    mkFlag types.StringType "The image to use for the worker nodes" None]> options in
  let options := <["key-pair" :=
    mkFlag types.StringType "keypair名称。与login_password二选一" None]> options in
  let options := <["num-of-nodes" :=
    mkFlag types.IntType "Worker节点数。范围是[0,300]" None]> options in
  let options := <["snat-entry" :=
    mkFlag types.StringType "是否为网络配置SNAT。如果是自动创建VPC必须设置为true。如果使用已有VPC则根据是否具备出网能力来设置"
           (Some (mkDefault true "" 0))]> options in
  let options := <["cloud-monitor-flags" :=
    mkFlag types.BoolType "是否安装云监控插件" None]> options in
  options.

Definition GetDriverCreateOptions : option types_DriverFlags * option error :=
  (Some {| Options := declared_create_options |}, None).

(** [(d *Driver) GetDriverUpdateOptions], likewise. *)
Definition declared_update_options : gmap string types_Flag :=
  let options : gmap string types_Flag := ∅ in
  let options := <["num-of-nodes" :=
    mkFlag types.IntType "The node number for your cluster to update. 0 means no updates"
           None]> options in
  options.

Definition GetDriverUpdateOptions : option types_DriverFlags * option error :=
  (Some {| Options := declared_update_options |}, None).

(** An option bag that holds declared options only: every key of its four
    maps is a key of the declared flags. *)
Definition declared_only (flags : types_DriverFlags) (opts : types.DriverOptions) : Prop :=
  (∀ key, is_Some (types.StringOptions opts !! key) → is_Some (Options flags !! key)) ∧
  (∀ key, is_Some (types.IntOptions opts !! key) → is_Some (Options flags !! key)) ∧
  (∀ key, is_Some (types.BoolOptions opts !! key) → is_Some (Options flags !! key)) ∧
  (∀ key, is_Some (types.StringSliceOptions opts !! key) → is_Some (Options flags !! key)).

(** The library answers with the zero value when the bag has none of the
    keys asked for, for a string and for an integer. *)
Definition library_zero_when_absent
    (G : types.DriverOptions → types.OptionType → list string → iface) : Prop :=
  ∀ opts keys,
    ((∀ key, key ∈ keys → types.StringOptions opts !! key = None) →
       G opts types.StringType keys = i_string "") ∧
    ((∀ key, key ∈ keys → types.IntOptions opts !! key = None) →
       G opts types.IntType keys = i_int64 0).

(** *** The operations that resolve the client

    [getClusterStats] and [updateAndWait] call [getState],
    [getServiceClient], the provider and [waitCluster].  They are interaction
    trees over the events of the provider and two more kinds of events: the
    calls of [getServiceClient] and of [waitCluster], whose meaning in a world
    is the run of the function called, and the panic of the Go run time. *)







Section Operations.

Variable json_Unmarshal : string → state → state * option error.



End Operations.

Section OperationRuns.

Variable ext : Externals.
Variable strings_ToLower : string → string.






End OperationRuns.

(** ** Further vocabulary *)

(** How often the byte [c] occurs in [s]. *)
Fixpoint count_byte (c : ascii) (s : string) : nat :=
  match s with
  | EmptyString => 0%nat
  | String a s' => ((if Ascii.eqb a c then 1 else 0) + count_byte c s')%nat
  end.

(** A label part is well formed when it has exactly one "=". *)
Definition well_formed_label (part : string) : bool :=
  Nat.eqb (count_byte "="%char part) 1.

(** A stand-in for the codec, for the runs on concrete inputs: it writes the
    name of the record between braces, and fails on a record without a name;
    decoding keeps the record it is given. *)
Definition sample_Marshal (st : state) : string + error :=
  if nonempty (Name st) then inl ("{" +:+ Name st +:+ "}")
  else inr "json: unsupported value".
Definition sample_Unmarshal (data : string) (v : state) : state * option error :=
  if nonempty data then (v, None) else (v, Some "unexpected end of JSON input").


(** The events on the temporary file. *)
Definition is_file_event (e : event) : bool :=
  match e with
  | EvTempFile _ _ | EvCopy _ _ | EvClose _ | EvRemove _ => true
  | _ => false
  end.
Definition is_remove (e : event) : bool :=
  match e with EvRemove _ => true | _ => false end.

(** Whether a call of [getServiceClient] gets as far as setting the
    credential variable: a credential path is given, or a credential content
    is given and the temporary file is created and written. *)
Definition sets_variable (ext : Externals) (st : state) : bool :=
  nonempty (CredentialPath st) ||
  (nonempty (CredentialContent st) &&
   match ioutil_TempFile_result ext, io_Copy_result ext with
   | inl _, None => true
   | _, _ => false
   end).

(** The credential that the discovery of a call of [getServiceClient] is
    pointed to, when the call gets as far as the discovery: the temporary file
    of the credential content, else the credential path, else whatever the
    environment holds. *)
Definition credential_source (ext : Externals) (st : state) (w : World)
  : option (option string) :=
  if nonempty (CredentialContent st) then
    match ioutil_TempFile_result ext, io_Copy_result ext with
    | inl file, None => Some (Some (file_Name file))
    | _, _ => None
    end
  else if nonempty (CredentialPath st) then Some (Some (CredentialPath st))
  else Some (env w !! defaultCredentialEnv).

(** An option bag of the options the driver declares, and one with the
    declared update option. *)
Definition aliyun_options : types.DriverOptions :=
  {| types.BoolOptions := {[ "cloud-monitor-flags" := true ]};
     types.StringOptions := {[ "name" := "c1"; "zone-id" := "cn-hangzhou-b" ]};
     types.IntOptions := {[ "num-of-nodes" := 3 ]};
     types.StringSliceOptions := ∅ |}.

Definition resize_options : types.DriverOptions :=
  {| types.BoolOptions := ∅;
     types.StringOptions := ∅;
     types.IntOptions := {[ "num-of-nodes" := 5 ]};
     types.StringSliceOptions := ∅ |}.

(** A running cluster with an endpoint and a master auth. *)
Definition endpoint_cluster (endpoint : string) : raw.Cluster :=
  raw.mkCluster "c1" "z1" "" 3 "" "" false None "" "" None
    (Some (raw.mkMasterAuth "admin" "secret" "Q0E=")) None None "" "" None "RUNNING" endpoint.


(** * Properties *)

(** ** Decoding and validation *)

Lemma nonempty_true (s : string) : nonempty s = true ↔ s ≠ "".
Proof.
  unfold nonempty. rewrite negb_true_iff. apply String.eqb_neq.
Qed.

Lemma validate_None (s : state) :
  validate s = None ↔ ProjectID s ≠ "" ∧ Zone s ≠ "" ∧ Name s ≠ "".
Proof.
  unfold validate.
  destruct (String.eqb_spec (ProjectID s) ""), (String.eqb_spec (Zone s) ""),
    (String.eqb_spec (Name s) ""); unfold fmt_Errorf;
    split; intros; try discriminate; intuition congruence.
Qed.

Lemma validate_Some (s : state) (e : error) :
  validate s = Some e → validation_error e ∧ (ProjectID s = "" ∨ Zone s = "" ∨ Name s = "").
Proof.
  unfold validate, validation_error, fmt_Errorf.
  destruct (String.eqb_spec (ProjectID s) ""), (String.eqb_spec (Zone s) ""),
    (String.eqb_spec (Name s) ""); intros [= <-]; intuition congruence.
Qed.

(** The append loop over the locations copies the slice. *)
Lemma append_loop (acc l : list string) :
  foldl (λ acc location, acc ++ [location]) acc l = acc ++ l.
Proof.
  revert acc. induction l as [|x l IH]; intros acc; cbn.
  - by rewrite app_nil_r.
  - rewrite IH, <- app_assoc. reflexivity.
Qed.

Lemma options_library_typed : library_typed options_GetValueFromDriverOptions.
Proof.
  intros opts keys. repeat split; eexists; reflexivity.
Qed.

Ltac lookup_typed G H :=
  repeat match goal with
  | |- context [G ?o types.StringType ?k] =>
      let s := fresh "s" in
      destruct (proj1 (H o k)) as [s ->]
  | |- context [G ?o types.IntType ?k] =>
      let n := fresh "n" in
      destruct (proj1 (proj2 (H o k))) as [n ->]
  | |- context [G ?o types.BoolType ?k] =>
      let b := fresh "b" in
      destruct (proj1 (proj2 (proj2 (H o k)))) as [b ->]
  | |- context [G ?o types.StringSliceType ?k] =>
      let l := fresh "l" in
      destruct (proj2 (proj2 (proj2 (H o k)))) as [l ->]
  end.

(** C1.  Whatever the option bag, decoding returns a record together with
    the verdict of [validate] on it (no type assertion panics, the library
    answering in the types asked for); the project id, the zone and the name
    of the record are the strings the library finds under ["project-id"] or
    ["projectId"], under ["zone"] and under ["name"]; when one of the three
    is empty the verdict is one of the three validation errors, and when all
    three are non-empty there is no error. *)
Theorem getStateFromOpts_validates
    (G : types.DriverOptions → types.OptionType → list string → iface)
    (opts : types.DriverOptions) :
  library_typed G →
  ∃ d : state,
    getStateFromOpts G opts = Some (d, validate d) ∧
    assert_string (G opts types.StringType ["project-id"; "projectId"]) = Some (ProjectID d) ∧
    assert_string (G opts types.StringType ["zone"]) = Some (Zone d) ∧
    assert_string (G opts types.StringType ["name"]) = Some (Name d) ∧
    (ProjectID d = "" ∨ Zone d = "" ∨ Name d = "" →
       ∃ e, validate d = Some e ∧ validation_error e) ∧
    (ProjectID d ≠ "" ∧ Zone d ≠ "" ∧ Name d ≠ "" → validate d = None).
Proof.
  intros H. unfold getStateFromOpts. cbv zeta.
  lookup_typed G H. cbn [assert_string assert_int64 assert_bool assert_StringSlice_ptr
                        mbind option_bind fmap option_fmap option_map].
  eexists. split; [reflexivity|]. cbn [ProjectID Zone Name].
  repeat split.
  - intros Hempty. destruct (validate _) as [e|] eqn:Hv.
    + exists e. split; [reflexivity|]. apply validate_Some in Hv as [Hv _]. exact Hv.
    + apply validate_None in Hv. cbn [ProjectID Zone Name] in Hv. intuition congruence.
  - intros Hfull. by apply validate_None.
Qed.

Lemma getStateFromOpts_validates_witness :
  library_typed options_GetValueFromDriverOptions ∧
  ∃ d : state,
    getStateFromOpts options_GetValueFromDriverOptions scenario_options
      = Some (d, validate d) ∧
    assert_string (options_GetValueFromDriverOptions scenario_options types.StringType
                     ["project-id"; "projectId"]) = Some (ProjectID d) ∧
    assert_string (options_GetValueFromDriverOptions scenario_options types.StringType
                     ["zone"]) = Some (Zone d) ∧
    assert_string (options_GetValueFromDriverOptions scenario_options types.StringType
                     ["name"]) = Some (Name d) ∧
    (ProjectID d = "" ∨ Zone d = "" ∨ Name d = "" →
       ∃ e, validate d = Some e ∧ validation_error e) ∧
    (ProjectID d ≠ "" ∧ Zone d ≠ "" ∧ Name d ≠ "" → validate d = None).
Proof.
  assert (Htyped : library_typed options_GetValueFromDriverOptions).
  { intros opts keys. repeat split; eexists; reflexivity. }
  split; [exact Htyped|].
  exact (getStateFromOpts_validates options_GetValueFromDriverOptions scenario_options Htyped).
Defined.

Example decode_scenario :
  getStateFromOpts options_GetValueFromDriverOptions scenario_options
  = Some (scenario_state, None).
Proof. vm_compute. reflexivity. Qed.

Example decode_without_zone :
  snd <$> getStateFromOpts options_GetValueFromDriverOptions
    {| types.BoolOptions := ∅;
       types.StringOptions := {[ "name" := "c1"; "projectId" := "p1" ]};
       types.IntOptions := ∅;
       types.StringSliceOptions := ∅ |}
  = Some (Some "zone is required").
Proof. vm_compute. reflexivity. Qed.

Example decode_labels :
  add_labels ∅ ["a=1"; "broken"; "b=2=3"; "a=4"; "="] !! "a" = Some "4" ∧
  add_labels ∅ ["a=1"; "broken"; "b=2=3"; "a=4"; "="] !! "b" = None ∧
  add_labels ∅ ["a=1"; "broken"; "b=2=3"; "a=4"; "="] !! "" = Some "".
Proof. vm_compute. repeat split. Qed.

(** ** The create-request builder *)

Lemma set_and_false_effective (toggle : option bool) :
  set_and_false toggle = negb (effective toggle).
Proof. by destruct toggle as [[]|]. Qed.

Lemma set_and_false_true (toggle : option bool) :
  set_and_false toggle = true ↔ toggle = Some false.
Proof. destruct toggle as [[]|]; cbn; split; congruence. Qed.

(** C3.  The request carries an addons config with its four entries, and the
    [Disabled] flag of each is the negation of the effective value of its
    toggle: of the tri-state toggle, unset counting as enabled, for HTTP load
    balancing, horizontal pod autoscaling and network policy, and of the
    plain boolean for the dashboard.  So with the three toggles unset and the
    dashboard toggle false the flags are false, false, false and true. *)
Theorem addons_disabled_is_negated_toggle
    (strings_ToLower : string → string) (st : state) :
  ∃ cluster addons hlb hpa dashboard npc,
    raw.Cluster_ (generateClusterCreateRequest strings_ToLower st) = Some cluster ∧
    raw.AddonsConfig_ cluster = Some addons ∧
    raw.HttpLoadBalancing_ addons = Some hlb ∧
    raw.HorizontalPodAutoscaling_ addons = Some hpa ∧
    raw.KubernetesDashboard_ addons = Some dashboard ∧
    raw.NetworkPolicyConfig_ addons = Some npc ∧
    raw.hlb_Disabled hlb = negb (effective (EnableHTTPLoadBalancing st)) ∧
    raw.hpa_Disabled hpa = negb (effective (EnableHorizontalPodAutoscaling st)) ∧
    raw.npc_Disabled npc = negb (effective (EnableNetworkPolicyConfig st)) ∧
    raw.kd_Disabled dashboard = negb (EnableKubernetesDashboard st) ∧
    (EnableHTTPLoadBalancing st = None →
     EnableHorizontalPodAutoscaling st = None →
     EnableNetworkPolicyConfig st = None →
     EnableKubernetesDashboard st = false →
     raw.hlb_Disabled hlb = false ∧ raw.hpa_Disabled hpa = false ∧
     raw.npc_Disabled npc = false ∧ raw.kd_Disabled dashboard = true).
Proof.
  unfold generateClusterCreateRequest. cbn.
  do 6 eexists. do 6 (split; [reflexivity|]). cbn.
  rewrite !set_and_false_effective. do 4 (split; [reflexivity|]).
  intros -> -> -> ->. done.
Qed.

(** C4.  The request's [LoggingService] is the sentinel ["none"] exactly when
    the Stackdriver-logging toggle is set and false, and is left empty when
    the toggle is unset or true; the same holds of [MonitoringService] and
    the Stackdriver-monitoring toggle. *)
Theorem stackdriver_none_iff_explicitly_false
    (strings_ToLower : string → string) (st : state) :
  ∃ cluster,
    raw.Cluster_ (generateClusterCreateRequest strings_ToLower st) = Some cluster ∧
    (raw.LoggingService cluster = "none" ↔ EnableStackdriverLogging st = Some false) ∧
    (EnableStackdriverLogging st = None ∨ EnableStackdriverLogging st = Some true →
       raw.LoggingService cluster = "") ∧
    (raw.MonitoringService cluster = "none" ↔ EnableStackdriverMonitoring st = Some false) ∧
    (EnableStackdriverMonitoring st = None ∨ EnableStackdriverMonitoring st = Some true →
       raw.MonitoringService cluster = "").
Proof.
  unfold generateClusterCreateRequest. cbn.
  eexists. split; [reflexivity|]. cbn. unfold none.
  destruct (EnableStackdriverLogging st) as [[]|],
    (EnableStackdriverMonitoring st) as [[]|]; cbn;
    repeat split; intros; try done; intuition congruence.
Qed.

Lemma addons_disabled_is_negated_toggle_witness :
  ∃ cluster addons hlb hpa dashboard npc,
    raw.Cluster_ (generateClusterCreateRequest ascii_ToLower scenario_state) = Some cluster ∧
    raw.AddonsConfig_ cluster = Some addons ∧
    raw.HttpLoadBalancing_ addons = Some hlb ∧
    raw.HorizontalPodAutoscaling_ addons = Some hpa ∧
    raw.KubernetesDashboard_ addons = Some dashboard ∧
    raw.NetworkPolicyConfig_ addons = Some npc ∧
    raw.hlb_Disabled hlb = false ∧ raw.hpa_Disabled hpa = false ∧
    raw.npc_Disabled npc = false ∧ raw.kd_Disabled dashboard = true.
Proof.
  destruct (addons_disabled_is_negated_toggle ascii_ToLower scenario_state)
    as (cluster & addons & hlb & hpa & dashboard & npc
        & Hc & Ha & H1 & H2 & H3 & H4 & _ & _ & _ & _ & Hunset).
  exists cluster, addons, hlb, hpa, dashboard, npc.
  do 6 (split; [assumption|]).
  apply Hunset; reflexivity.
Defined.

Lemma stackdriver_none_iff_explicitly_false_witness :
  ∃ cluster,
    raw.Cluster_ (generateClusterCreateRequest ascii_ToLower scenario_state) = Some cluster ∧
    raw.LoggingService cluster = "" ∧ raw.MonitoringService cluster = "".
Proof.
  destruct (stackdriver_none_iff_explicitly_false ascii_ToLower scenario_state)
    as (cluster & Hc & _ & Hlog & _ & Hmon).
  exists cluster. split; [assumption|].
  split; [apply Hlog | apply Hmon]; left; reflexivity.
Defined.

(** The end-to-end scenario of the specification: the built request has
    three initial nodes, the user name ["admin"] and no maintenance policy. *)
Example build_scenario :
  (λ c, (raw.InitialNodeCount c, raw.Username <$> raw.MasterAuth_ c, raw.MaintenancePolicy_ c))
    <$> raw.Cluster_ (generateClusterCreateRequest ascii_ToLower scenario_state)
  = Some (3, Some "admin", None).
Proof. reflexivity. Qed.

Example build_logging_off :
  raw.LoggingService
    <$> raw.Cluster_ (generateClusterCreateRequest ascii_ToLower
          (mkState "Demo" "p1" "z1" "" "" 3 "" None "" "c1" None "" "" false
                   (Some false) (Some true) true None [] "" "" false ""
                   (Some false) (Some true) "03:00" types.ClusterInfo_zero))
  = Some "none".
Proof. reflexivity. Qed.

(** ** The state codec *)

(** What the source itself contributes to the round trip: after a successful
    [storeState], the metadata holds the marshalled bytes under ["state"]
    (the later writes of ["project-id"] and ["zone"] leave them alone), and
    [getState] runs the decoder on exactly these bytes, into a zero record. *)
Lemma getState_after_storeState
    (json_Marshal : state → string + error)
    (json_Unmarshal : string → state → state * option error)
    (info : types.ClusterInfo) (st : state) (bytes : string) :
  json_Marshal st = inl bytes →
  ∃ info',
    storeState json_Marshal info st = (info', None) ∧
    map_index (types.Metadata info') "state" = bytes ∧
    map_index (types.Metadata info') "project-id" = ProjectID st ∧
    map_index (types.Metadata info') "zone" = Zone st ∧
    getState json_Unmarshal info' = json_Unmarshal bytes state_zero.
Proof.
  intros Hm. unfold storeState, getState. rewrite Hm.
  eexists. split; [reflexivity|]. unfold map_index. cbn.
  assert (Hstate : ∀ m : gmap string string,
    <["zone" := Zone st]> (<["project-id" := ProjectID st]> (<["state" := bytes]> m))
      !! "state" = Some bytes).
  { intros m. rewrite lookup_insert_ne by done. rewrite lookup_insert_ne by done.
    apply lookup_insert_eq. }
  rewrite Hstate. cbn. repeat split.
  - rewrite lookup_insert_ne by done. by rewrite lookup_insert_eq.
  - by rewrite lookup_insert_eq.
Qed.

(** A failed [json.Marshal] leaves the cluster-info record as it was. *)
Lemma storeState_marshal_error
    (json_Marshal : state → string + error)
    (info : types.ClusterInfo) (st : state) (err : error) :
  json_Marshal st = inr err → storeState json_Marshal info st = (info, Some err).
Proof. intros Hm. unfold storeState. by rewrite Hm. Qed.

(** ** The polling loops *)

Lemma runs_cons (x : string) (l : list string) :
  runs (x :: l) = x :: tail (runs (x :: l)).
Proof.
  revert x. induction l as [|y l IH]; intros x; [reflexivity|].
  change (runs (x :: y :: l))
    with (if String.eqb x y then runs (y :: l) else x :: runs (y :: l)).
  destruct (String.eqb_spec x y) as [->|Hne]; [apply IH | reflexivity].
Qed.

(** A block of equal elements that the next element ends is one run. *)
Lemma runs_block (x : string) (n : nat) (l : list string) :
  head l ≠ Some x → runs (replicate (S n) x ++ l) = x :: runs l.
Proof.
  intros Hnext. induction n as [|n IH].
  - destruct l as [|y l]; [reflexivity|].
    change (runs (replicate 1 x ++ y :: l))
      with (if String.eqb x y then runs (y :: l) else x :: runs (y :: l)).
    destruct (String.eqb_spec x y) as [->|Hne]; [by destruct Hnext | reflexivity].
  - change (runs (replicate (S (S n)) x ++ l))
      with (if String.eqb x x then runs (replicate (S n) x ++ l)
            else x :: runs (replicate (S n) x ++ l)).
    rewrite String.eqb_refl. exact IH.
Qed.

Example runs_example :
  runs ["PROVISIONING"; "PROVISIONING"; "RECONCILING"; "PROVISIONING"]
  = ["PROVISIONING"; "RECONCILING"; "PROVISIONING"].
Proof. reflexivity. Qed.

Section PolledFacts.

Variable get : event.
Variable progress : string → event.
Variable format : string.
Variable notified : string → string.
Hypothesis get_is_fetch : is_fetch get = true.
Hypothesis get_not_sleep : is_sleep get = false.
Hypothesis progress_not_fetch : ∀ s, is_fetch (progress s) = false.
Hypothesis progress_not_sleep : ∀ s, is_sleep (progress s) = false.
Hypothesis get_not_infof : is_infof get = false.
Hypothesis progress_is_infof : ∀ s, is_infof (progress s) = true.
Hypothesis get_not_progress :
  progress_notifications format [get] = [].
Hypothesis progress_is_progress :
  ∀ s, progress_notifications format [progress s] = [notified s].

Lemma progress_notifications_app (ev ev' : list event) :
  progress_notifications format (ev ++ ev')
  = progress_notifications format ev ++ progress_notifications format ev'.
Proof. unfold progress_notifications. apply omap_app. Qed.

Lemma count_app (p : event → bool) (ev ev' : list event) :
  count p (ev ++ ev') = (count p ev + count p ev')%nat.
Proof. unfold count. by rewrite List.filter_app, length_app. Qed.

Lemma polled_fetches (lastMsg : string) (statuses : list string) :
  count is_fetch (polled get progress lastMsg statuses) = length statuses.
Proof.
  revert lastMsg. induction statuses as [|s l IH]; intros lastMsg; [reflexivity|].
  cbn [polled]. change (?a :: ?l ++ ?b :: ?r) with ([a] ++ l ++ [b] ++ r).
  rewrite !count_app, IH. unfold count at 1 3. cbn. rewrite get_is_fetch.
  destruct (negb _); cbn; rewrite ?progress_not_fetch; reflexivity.
Qed.

Lemma polled_sleeps (lastMsg : string) (statuses : list string) :
  count is_sleep (polled get progress lastMsg statuses) = length statuses.
Proof.
  revert lastMsg. induction statuses as [|s l IH]; intros lastMsg; [reflexivity|].
  cbn [polled]. change (?a :: ?l ++ ?b :: ?r) with ([a] ++ l ++ [b] ++ r).
  rewrite !count_app, IH. unfold count at 1 3. cbn. rewrite get_not_sleep.
  destruct (negb _); cbn; rewrite ?progress_not_sleep; reflexivity.
Qed.

(** One progress notification per change of status, the first status being
    compared with [lastMsg]. *)
Lemma polled_notifications (lastMsg : string) (statuses : list string) :
  progress_notifications format (polled get progress lastMsg statuses)
  = notified <$> tail (runs (lastMsg :: statuses)).
Proof.
  revert lastMsg. induction statuses as [|s l IH]; intros lastMsg; [reflexivity|].
  cbn [polled]. change (?a :: ?l ++ ?b :: ?r) with ([a] ++ l ++ [b] ++ r).
  rewrite !progress_notifications_app, IH, get_not_progress.
  change (runs (lastMsg :: s :: l))
    with (if String.eqb lastMsg s then runs (s :: l) else lastMsg :: runs (s :: l)).
  rewrite (String.eqb_sym s lastMsg).
  destruct (String.eqb lastMsg s); cbn [negb tail app].
  - reflexivity.
  - rewrite progress_is_progress, (runs_cons s l). reflexivity.
Qed.

Lemma polled_infofs (lastMsg : string) (statuses : list string) :
  count is_infof (polled get progress lastMsg statuses)
  = length (tail (runs (lastMsg :: statuses))).
Proof.
  revert lastMsg. induction statuses as [|s l IH]; intros lastMsg; [reflexivity|].
  cbn [polled]. change (?a :: ?l ++ ?b :: ?r) with ([a] ++ l ++ [b] ++ r).
  rewrite !count_app, IH.
  change (runs (lastMsg :: s :: l))
    with (if String.eqb lastMsg s then runs (s :: l) else lastMsg :: runs (s :: l)).
  rewrite (String.eqb_sym s lastMsg), (runs_cons s l).
  unfold count. cbn [List.filter length is_infof]. rewrite get_not_infof.
  destruct (String.eqb lastMsg s); cbn [negb tail List.filter length Nat.add].
  - reflexivity.
  - rewrite progress_is_infof. reflexivity.
Qed.

End PolledFacts.

Lemma last_status_cons (lastMsg s : string) (l : list string) :
  last_status lastMsg (s :: l) = last_status s l.
Proof.
  unfold last_status. revert lastMsg s.
  induction l as [|y l IH]; intros lastMsg s; [reflexivity|].
  change (List.last (s :: y :: l) lastMsg) with (List.last (y :: l) lastMsg).
  rewrite (IH lastMsg y), (IH s y). reflexivity.
Qed.

Lemma polled_cons (get : event) (progress : string → event) (lastMsg s : string)
    (l : list string) :
  polled get progress lastMsg (s :: l)
  = polled get progress lastMsg [s] ++ polled get progress s l.
Proof. cbn [polled]. rewrite <- !app_comm_cons, <- app_assoc. reflexivity. Qed.

Lemma after_after (w : World) (ev ev' : list event) :
  after (after w ev) ev' = after w (ev ++ ev').
Proof. unfold after. cbn. by rewrite rev_app_distr, app_assoc. Qed.

Lemma after_nil (w : World) : after w [] = w.
Proof. by destruct w. Qed.

Lemma set_clusters_after (w : World) rest rest' (ev ev' : list event) :
  set_clusters rest (after (set_clusters rest' (after w ev)) ev')
  = set_clusters rest (after w (ev ++ ev')).
Proof. unfold set_clusters, after. cbn. by rewrite rev_app_distr, app_assoc. Qed.

Lemma set_nodepools_after (w : World) rest rest' (ev ev' : list event) :
  set_nodepools rest (after (set_nodepools rest' (after w ev)) ev')
  = set_nodepools rest (after w (ev ++ ev')).
Proof. unfold set_nodepools, after. cbn. by rewrite rev_app_distr, app_assoc. Qed.

Lemma set_clusters_same (w : World) rest :
  clusters w = rest → set_clusters rest w = w.
Proof. intros <-. by destruct w. Qed.

Lemma set_nodepools_same (w : World) rest :
  nodepools w = rest → set_nodepools rest w = w.
Proof. intros <-. by destruct w. Qed.

Lemma events_between_after (w : World) (ev : list event) : events_between w (after w ev) ev.
Proof. reflexivity. Qed.

(** One step of the interpretation of a program in a world. *)
Ltac run_step :=
  first [ rewrite interp_state_bind
        | rewrite interp_state_trigger
        | rewrite interp_state_ret
        | rewrite interp_state_tau
        | rewrite bind_bind
        | rewrite bind_ret_l
        | rewrite tau_eutt ];
  cbn.

Section WaitFacts.

Variable strings_ToLower : string → string.
Variable st : state.

Abbreviation cluster_loop := (ITree.iter (waitCluster_iteration strings_ToLower st)).
Abbreviation nodepool_loop := (ITree.iter (waitNodePool_iteration strings_ToLower st)).

(** An iteration whose fetch fails: the loop returns the error, and the
    fetch is its only event. *)
Lemma waitCluster_fetch_error lastMsg w err rest :
  clusters w = inr err :: rest →
  run (cluster_loop lastMsg) w
  ≈ Ret (set_clusters rest (after w [cluster_fetch st]), Some err).
Proof.
  intros Hc. unfold run. rewrite unfold_iter.
  unfold waitCluster_iteration at 1, mbind, itree_mbind.
  rewrite bind_bind, interp_state_bind, interp_state_trigger. cbn.
  rewrite Hc. cbn. repeat run_step. reflexivity.
Qed.

Lemma waitNodePool_fetch_error lastMsg w err rest :
  nodepools w = inr err :: rest →
  run (nodepool_loop lastMsg) w
  ≈ Ret (set_nodepools rest (after w [nodepool_fetch st]), Some err).
Proof.
  intros Hc. unfold run. rewrite unfold_iter.
  unfold waitNodePool_iteration at 1, mbind, itree_mbind.
  rewrite bind_bind, interp_state_bind, interp_state_trigger. cbn.
  rewrite Hc. cbn. repeat run_step. reflexivity.
Qed.

(** An iteration that finds the terminal status: the loop logs it and
    returns no error. *)
Lemma waitCluster_running lastMsg w c rest :
  clusters w = inl c :: rest → raw.Status c = runningStatus →
  run (cluster_loop lastMsg) w
  ≈ Ret (set_clusters rest (after w [cluster_fetch st; cluster_running st]), None).
Proof.
  intros Hc Hs. unfold run. rewrite unfold_iter.
  unfold waitCluster_iteration at 1, mbind, itree_mbind.
  rewrite bind_bind, interp_state_bind, interp_state_trigger. cbn.
  rewrite Hc. cbn. rewrite bind_ret_l. cbn.
  apply String.eqb_eq in Hs. rewrite Hs. repeat run_step. reflexivity.
Qed.

Lemma waitNodePool_running lastMsg w c rest :
  nodepools w = inl c :: rest → raw.np_Status c = runningStatus →
  run (nodepool_loop lastMsg) w
  ≈ Ret (set_nodepools rest (after w [nodepool_fetch st; nodepool_running st]), None).
Proof.
  intros Hc Hs. unfold run. rewrite unfold_iter.
  unfold waitNodePool_iteration at 1, mbind, itree_mbind.
  rewrite bind_bind, interp_state_bind, interp_state_trigger. cbn.
  rewrite Hc. cbn. rewrite bind_ret_l. cbn.
  apply String.eqb_eq in Hs. rewrite Hs. repeat run_step. reflexivity.
Qed.

(** An iteration that finds another status: the loop notifies it if it
    differs from [lastMsg], sleeps, and goes on with the status as
    [lastMsg]. *)
Lemma waitCluster_pending lastMsg w c rest :
  clusters w = inl c :: rest → raw.Status c ≠ runningStatus →
  run (cluster_loop lastMsg) w
  ≈ run (cluster_loop (raw.Status c))
        (set_clusters rest
           (after w (polled (cluster_fetch st) (cluster_progress strings_ToLower st)
                            lastMsg [raw.Status c]))).
Proof.
  intros Hc Hs. unfold run. rewrite unfold_iter.
  unfold waitCluster_iteration at 1, mbind, itree_mbind.
  rewrite bind_bind, interp_state_bind, interp_state_trigger. cbn.
  rewrite Hc. cbn. rewrite bind_ret_l. cbn.
  apply String.eqb_neq in Hs. rewrite Hs.
  destruct (String.eqb_spec (raw.Status c) lastMsg) as [<-|Hne]; cbn;
    repeat run_step; reflexivity.
Qed.

Lemma waitNodePool_pending lastMsg w c rest :
  nodepools w = inl c :: rest → raw.np_Status c ≠ runningStatus →
  run (nodepool_loop lastMsg) w
  ≈ run (nodepool_loop (raw.np_Status c))
        (set_nodepools rest
           (after w (polled (nodepool_fetch st) (nodepool_progress strings_ToLower st)
                            lastMsg [raw.np_Status c]))).
Proof.
  intros Hc Hs. unfold run. rewrite unfold_iter.
  unfold waitNodePool_iteration at 1, mbind, itree_mbind.
  rewrite bind_bind, interp_state_bind, interp_state_trigger. cbn.
  rewrite Hc. cbn. rewrite bind_ret_l. cbn.
  apply String.eqb_neq in Hs. rewrite Hs.
  destruct (String.eqb_spec (raw.np_Status c) lastMsg) as [<-|Hne]; cbn;
    repeat run_step; reflexivity.
Qed.

End WaitFacts.

Section WaitRuns.

Variable strings_ToLower : string → string.
Variable st : state.

(** The polls that find non-terminal statuses: the loop is then where it
    would be had it started after them, with the latest status as
    [lastMsg]. *)
Lemma waitCluster_polls (cs : list raw.Cluster) :
  ∀ lastMsg w rest,
    Forall (λ c, raw.Status c ≠ runningStatus) cs →
    clusters w = (inl <$> cs) ++ rest →
    run (ITree.iter (waitCluster_iteration strings_ToLower st) lastMsg) w
    ≈ run (ITree.iter (waitCluster_iteration strings_ToLower st)
                      (last_status lastMsg (raw.Status <$> cs)))
          (set_clusters rest
             (after w (polled (cluster_fetch st) (cluster_progress strings_ToLower st)
                              lastMsg (raw.Status <$> cs)))).
Proof.
  induction cs as [|c cs IH]; intros lastMsg w rest Hpending Hscript.
  - cbn [fmap list_fmap app polled] in *. rewrite after_nil, set_clusters_same by done.
    reflexivity.
  - apply Forall_cons in Hpending as [Hc Hcs].
    cbn [fmap list_fmap app] in Hscript.
    rewrite (waitCluster_pending _ _ lastMsg w c _ Hscript Hc).
    rewrite (IH (raw.Status c) _ rest Hcs); [|reflexivity].
    cbn [fmap list_fmap].
    rewrite last_status_cons, set_clusters_after, <- polled_cons. reflexivity.
Qed.

Lemma waitNodePool_polls (nps : list raw.NodePool) :
  ∀ lastMsg w rest,
    Forall (λ c, raw.np_Status c ≠ runningStatus) nps →
    nodepools w = (inl <$> nps) ++ rest →
    run (ITree.iter (waitNodePool_iteration strings_ToLower st) lastMsg) w
    ≈ run (ITree.iter (waitNodePool_iteration strings_ToLower st)
                      (last_status lastMsg (raw.np_Status <$> nps)))
          (set_nodepools rest
             (after w (polled (nodepool_fetch st) (nodepool_progress strings_ToLower st)
                              lastMsg (raw.np_Status <$> nps)))).
Proof.
  induction nps as [|c nps IH]; intros lastMsg w rest Hpending Hscript.
  - cbn [fmap list_fmap app polled] in *. rewrite after_nil, set_nodepools_same by done.
    reflexivity.
  - apply Forall_cons in Hpending as [Hc Hcs].
    cbn [fmap list_fmap app] in Hscript.
    rewrite (waitNodePool_pending _ _ lastMsg w c _ Hscript Hc).
    rewrite (IH (raw.np_Status c) _ rest Hcs); [|reflexivity].
    cbn [fmap list_fmap].
    rewrite last_status_cons, set_nodepools_after, <- polled_cons. reflexivity.
Qed.

(** The whole run of [waitCluster] on a script of non-terminal statuses
    followed by a failing fetch, and on one followed by the terminal
    status. *)
Lemma waitCluster_until_error (cs : list raw.Cluster) w err rest :
  Forall (λ c, raw.Status c ≠ runningStatus) cs →
  clusters w = (inl <$> cs) ++ inr err :: rest →
  run (waitCluster strings_ToLower st) w
  ≈ Ret (set_clusters rest
           (after w (polled (cluster_fetch st) (cluster_progress strings_ToLower st)
                            "" (raw.Status <$> cs) ++ [cluster_fetch st])),
         Some err).
Proof.
  intros Hpending Hscript. unfold waitCluster.
  rewrite (waitCluster_polls cs "" w _ Hpending Hscript).
  rewrite (waitCluster_fetch_error _ _ _ _ err rest); [|reflexivity].
  rewrite set_clusters_after. reflexivity.
Qed.

Lemma waitCluster_until_running (cs : list raw.Cluster) w c rest :
  Forall (λ c, raw.Status c ≠ runningStatus) cs →
  raw.Status c = runningStatus →
  clusters w = (inl <$> cs) ++ inl c :: rest →
  run (waitCluster strings_ToLower st) w
  ≈ Ret (set_clusters rest
           (after w (polled (cluster_fetch st) (cluster_progress strings_ToLower st)
                            "" (raw.Status <$> cs)
                     ++ [cluster_fetch st; cluster_running st])),
         None).
Proof.
  intros Hpending Hc Hscript. unfold waitCluster.
  rewrite (waitCluster_polls cs "" w _ Hpending Hscript).
  rewrite (waitCluster_running _ _ _ _ c rest); [|reflexivity|exact Hc].
  rewrite set_clusters_after. reflexivity.
Qed.

Lemma waitNodePool_until_error (nps : list raw.NodePool) w err rest :
  Forall (λ c, raw.np_Status c ≠ runningStatus) nps →
  nodepools w = (inl <$> nps) ++ inr err :: rest →
  run (waitNodePool strings_ToLower st) w
  ≈ Ret (set_nodepools rest
           (after w (polled (nodepool_fetch st) (nodepool_progress strings_ToLower st)
                            "" (raw.np_Status <$> nps) ++ [nodepool_fetch st])),
         Some err).
Proof.
  intros Hpending Hscript. unfold waitNodePool.
  rewrite (waitNodePool_polls nps "" w _ Hpending Hscript).
  rewrite (waitNodePool_fetch_error _ _ _ _ err rest); [|reflexivity].
  rewrite set_nodepools_after. reflexivity.
Qed.

Lemma waitNodePool_until_running (nps : list raw.NodePool) w c rest :
  Forall (λ c, raw.np_Status c ≠ runningStatus) nps →
  raw.np_Status c = runningStatus →
  nodepools w = (inl <$> nps) ++ inl c :: rest →
  run (waitNodePool strings_ToLower st) w
  ≈ Ret (set_nodepools rest
           (after w (polled (nodepool_fetch st) (nodepool_progress strings_ToLower st)
                            "" (raw.np_Status <$> nps)
                     ++ [nodepool_fetch st; nodepool_running st])),
         None).
Proof.
  intros Hpending Hc Hscript. unfold waitNodePool.
  rewrite (waitNodePool_polls nps "" w _ Hpending Hscript).
  rewrite (waitNodePool_running _ _ _ _ c rest); [|reflexivity|exact Hc].
  rewrite set_nodepools_after. reflexivity.
Qed.


End WaitRuns.

Lemma cluster_polled_notifications strings_ToLower st lastMsg statuses :
  progress_notifications "%v cluster %v......"
    (polled (cluster_fetch st) (cluster_progress strings_ToLower st) lastMsg statuses)
  = strings_ToLower <$> tail (runs (lastMsg :: statuses)).
Proof. by apply polled_notifications. Qed.

Lemma nodepool_polled_notifications strings_ToLower st lastMsg statuses :
  progress_notifications "%v nodepool %v......"
    (polled (nodepool_fetch st) (nodepool_progress strings_ToLower st) lastMsg statuses)
  = strings_ToLower <$> tail (runs (lastMsg :: statuses)).
Proof. by apply polled_notifications. Qed.

(** C5.  When a fetch of [waitCluster] fails, after any number of polls that
    found non-terminal statuses, the loop returns that very error, and the
    failing fetch is the last event of the run: the events are those of the
    earlier polls followed by the one fetch, so the run has one fetch more
    than it has polls before, one sleep per earlier poll and none after the
    failure, and no notification but those of the earlier polls; the
    provider's later answers are left unread.  The same holds of
    [waitNodePool]. *)
Theorem wait_returns_fetch_error_at_once
    (strings_ToLower : string → string) (st : state) (w : World)
    (cs : list raw.Cluster) (err : error) (rest : list (raw.Cluster + error))
    (nps : list raw.NodePool) (err' : error) (rest' : list (raw.NodePool + error)) :
  Forall (λ c, raw.Status c ≠ runningStatus) cs →
  clusters w = (inl <$> cs) ++ inr err :: rest →
  Forall (λ np, raw.np_Status np ≠ runningStatus) nps →
  nodepools w = (inl <$> nps) ++ inr err' :: rest' →
  (∃ w' ev,
     run (waitCluster strings_ToLower st) w ≈ Ret (w', Some err) ∧
     events_between w w' ev ∧
     ev = polled (cluster_fetch st) (cluster_progress strings_ToLower st) ""
                 (raw.Status <$> cs) ++ [cluster_fetch st] ∧
     count is_fetch ev = S (length cs) ∧
     count is_sleep ev = length cs ∧
     count is_infof ev = length (tail (runs ("" :: (raw.Status <$> cs)))) ∧
     clusters w' = rest) ∧
  (∃ w' ev,
     run (waitNodePool strings_ToLower st) w ≈ Ret (w', Some err') ∧
     events_between w w' ev ∧
     ev = polled (nodepool_fetch st) (nodepool_progress strings_ToLower st) ""
                 (raw.np_Status <$> nps) ++ [nodepool_fetch st] ∧
     count is_fetch ev = S (length nps) ∧
     count is_sleep ev = length nps ∧
     count is_infof ev = length (tail (runs ("" :: (raw.np_Status <$> nps)))) ∧
     nodepools w' = rest').
Proof.
  intros Hcs Hw Hnps Hw'. split.
  - eexists _, _. split; [exact (waitCluster_until_error _ _ cs w err rest Hcs Hw)|].
    split; [apply events_between_after|]. split; [reflexivity|].
    rewrite !count_app. repeat split.
    + rewrite polled_fetches by done. rewrite length_fmap. cbn. lia.
    + rewrite polled_sleeps by done. rewrite length_fmap. cbn. lia.
    + rewrite polled_infofs by done. cbn. lia.
  - eexists _, _. split; [exact (waitNodePool_until_error _ _ nps w err' rest' Hnps Hw')|].
    split; [apply events_between_after|]. split; [reflexivity|].
    rewrite !count_app. repeat split.
    + rewrite polled_fetches by done. rewrite length_fmap. cbn. lia.
    + rewrite polled_sleeps by done. rewrite length_fmap. cbn. lia.
    + rewrite polled_infofs by done. cbn. lia.
Qed.

Lemma wait_returns_fetch_error_at_once_witness :
  let w := world_answering
             [inl (cluster_in "PROVISIONING"); inr "context deadline exceeded";
              inl (cluster_in "RUNNING")]
             [inr "googleapi: Error 503"] [] in
  (∃ w', run (waitCluster ascii_ToLower scenario_state) w
           ≈ Ret (w', Some "context deadline exceeded") ∧
         clusters w' = [inl (cluster_in "RUNNING")] ∧
         rev (trace w')
         = [EvClustersGet "p1" "z1" "c1";
            EvInfof "%v cluster %v......" ["provisioning"; "c1"];
            EvSleep 5000000000;
            EvClustersGet "p1" "z1" "c1"]) ∧
  (∃ w', run (waitNodePool ascii_ToLower scenario_state) w
           ≈ Ret (w', Some "googleapi: Error 503") ∧
         rev (trace w') = [EvNodePoolsGet "p1" "z1" "c1" ""]).
Proof.
  intros w.
  destruct (wait_returns_fetch_error_at_once ascii_ToLower scenario_state w
              [cluster_in "PROVISIONING"] "context deadline exceeded"
              [inl (cluster_in "RUNNING")]
              [] "googleapi: Error 503" [])
    as [(w1 & ev1 & Hrun1 & Hev1 & Heq1 & _ & _ & _ & Hrest1)
        (w2 & ev2 & Hrun2 & Hev2 & Heq2 & _)].
  - repeat constructor. discriminate.
  - reflexivity.
  - constructor.
  - reflexivity.
  - split.
    + exists w1. split; [exact Hrun1|]. split; [exact Hrest1|].
      unfold events_between in Hev1. rewrite Hev1, Heq1. reflexivity.
    + exists w2. split; [exact Hrun2|].
      unfold events_between in Hev2. rewrite Hev2, Heq2. reflexivity.
Defined.

Lemma runs_after_empty (statuses : list string) :
  head statuses ≠ Some "" → tail (runs ("" :: statuses)) = runs statuses.
Proof.
  destruct statuses as [|s l]; [reflexivity|]. intros Hs.
  change (runs ("" :: s :: l))
    with (if String.eqb "" s then runs (s :: l) else "" :: runs (s :: l)).
  destruct (String.eqb_spec "" s) as [<-|Hne]; [by destruct Hs | reflexivity].
Qed.

(** C6, as amended.  On a script of non-terminal statuses followed by the
    terminal one, [waitCluster] returns no error after the events of the
    polls, a last fetch and the notification that the cluster is running.
    Its progress notifications are the lower-cased values of the maximal runs
    of consecutive equal statuses, one each, except that a leading run of
    empty statuses is not notified, the loop starting with the empty string
    as the status of the poll before; so they are one per maximal run when
    the first status is not empty.  It sleeps once per poll that found a
    non-terminal status.  The same holds of [waitNodePool]. *)
Theorem wait_notifies_once_per_run
    (strings_ToLower : string → string) (st : state) (w : World)
    (cs : list raw.Cluster) (c : raw.Cluster) (rest : list (raw.Cluster + error))
    (nps : list raw.NodePool) (np : raw.NodePool) (rest' : list (raw.NodePool + error)) :
  Forall (λ c, raw.Status c ≠ runningStatus) cs →
  raw.Status c = runningStatus →
  clusters w = (inl <$> cs) ++ inl c :: rest →
  Forall (λ np, raw.np_Status np ≠ runningStatus) nps →
  raw.np_Status np = runningStatus →
  nodepools w = (inl <$> nps) ++ inl np :: rest' →
  (∃ w' ev,
     run (waitCluster strings_ToLower st) w ≈ Ret (w', None) ∧
     events_between w w' ev ∧
     ev = polled (cluster_fetch st) (cluster_progress strings_ToLower st) ""
                 (raw.Status <$> cs) ++ [cluster_fetch st; cluster_running st] ∧
     progress_notifications "%v cluster %v......" ev
       = strings_ToLower <$> tail (runs ("" :: (raw.Status <$> cs))) ∧
     (head (raw.Status <$> cs) ≠ Some "" →
        progress_notifications "%v cluster %v......" ev
          = strings_ToLower <$> runs (raw.Status <$> cs)) ∧
     count is_sleep ev = length cs) ∧
  (∃ w' ev,
     run (waitNodePool strings_ToLower st) w ≈ Ret (w', None) ∧
     events_between w w' ev ∧
     ev = polled (nodepool_fetch st) (nodepool_progress strings_ToLower st) ""
                 (raw.np_Status <$> nps) ++ [nodepool_fetch st; nodepool_running st] ∧
     progress_notifications "%v nodepool %v......" ev
       = strings_ToLower <$> tail (runs ("" :: (raw.np_Status <$> nps))) ∧
     (head (raw.np_Status <$> nps) ≠ Some "" →
        progress_notifications "%v nodepool %v......" ev
          = strings_ToLower <$> runs (raw.np_Status <$> nps)) ∧
     count is_sleep ev = length nps).
Proof.
  intros Hcs Hc Hw Hnps Hnp Hw'. split.
  - eexists _, _.
    split; [exact (waitCluster_until_running _ _ cs w c rest Hcs Hc Hw)|].
    split; [apply events_between_after|]. split; [reflexivity|].
    rewrite progress_notifications_app, cluster_polled_notifications, app_nil_r.
    split; [reflexivity|]. split.
    + intros Hhead. by rewrite runs_after_empty.
    + rewrite count_app, polled_sleeps by done. rewrite length_fmap. cbn. lia.
  - eexists _, _.
    split; [exact (waitNodePool_until_running _ _ nps w np rest' Hnps Hnp Hw')|].
    split; [apply events_between_after|]. split; [reflexivity|].
    rewrite progress_notifications_app, nodepool_polled_notifications, app_nil_r.
    split; [reflexivity|]. split.
    + intros Hhead. by rewrite runs_after_empty.
    + rewrite count_app, polled_sleeps by done. rewrite length_fmap. cbn. lia.
Qed.

Lemma wait_notifies_once_per_run_witness :
  let w := world_answering
             [inl (cluster_in "PROVISIONING"); inl (cluster_in "PROVISIONING");
              inl (cluster_in "RUNNING")]
             [inl (nodepool_in "RECONCILING"); inl (nodepool_in "PROVISIONING");
              inl (nodepool_in "RUNNING")] [] in
  (∃ w' ev,
     run (waitCluster ascii_ToLower scenario_state) w ≈ Ret (w', None) ∧
     events_between w w' ev ∧
     progress_notifications "%v cluster %v......" ev = ["provisioning"]) ∧
  (∃ w' ev,
     run (waitNodePool ascii_ToLower scenario_state) w ≈ Ret (w', None) ∧
     events_between w w' ev ∧
     progress_notifications "%v nodepool %v......" ev = ["reconciling"; "provisioning"]).
Proof.
  intros w.
  destruct (wait_notifies_once_per_run ascii_ToLower scenario_state w
              [cluster_in "PROVISIONING"; cluster_in "PROVISIONING"]
              (cluster_in "RUNNING") []
              [nodepool_in "RECONCILING"; nodepool_in "PROVISIONING"]
              (nodepool_in "RUNNING") [])
    as [(w1 & ev1 & Hrun1 & Hev1 & _ & _ & Hn1 & _)
        (w2 & ev2 & Hrun2 & Hev2 & _ & _ & Hn2 & _)].
  - repeat constructor; discriminate.
  - reflexivity.
  - reflexivity.
  - repeat constructor; discriminate.
  - reflexivity.
  - reflexivity.
  - split.
    + exists w1, ev1. split; [exact Hrun1|]. split; [exact Hev1|].
      rewrite Hn1; [reflexivity | discriminate].
    + exists w2, ev2. split; [exact Hrun2|]. split; [exact Hev2|].
      rewrite Hn2; [reflexivity | discriminate].
Defined.

(** C6, as stated, fails on the statuses "", RUNNING: the one maximal run of
    non-terminal statuses is the empty status, and no progress notification
    is emitted for it. *)
Lemma wait_silent_on_leading_empty_status :
  let w := world_answering [inl (cluster_in ""); inl (cluster_in "RUNNING")] [] [] in
  runs [""] = [""] ∧
  ¬ ∃ w', run (waitCluster ascii_ToLower scenario_state) w ≈ Ret (w', None) ∧
          progress_notifications "%v cluster %v......" (rev (trace w'))
          = ascii_ToLower <$> runs [""].
Proof.
  intros w. split; [reflexivity|]. intros (w' & Hrun & Hn).
  rewrite (waitCluster_until_running ascii_ToLower scenario_state
             [cluster_in ""] w (cluster_in "RUNNING") []) in Hrun.
  - apply eutt_inv_Ret in Hrun. injection Hrun as <-. vm_compute in Hn. discriminate.
  - repeat constructor. discriminate.
  - reflexivity.
  - reflexivity.
Qed.

(** ** The credential resolver *)

Ltac proc_eval :=
  cbv beta iota zeta delta
    [mbind mret proc_mbind proc_mret return_ on_world effect read_env read_locked
     read_setEnv assign_locked assign_setEnv defer EnvMutex_Lock EnvMutex_Unlock
     os_Setenv os_Unsetenv cleanup call_deferred run_deferred call
     ioutil_TempFile io_Copy google_DefaultTokenSource oauth2_NewClient raw_New
     getServiceClient world locked setEnv deferred record_event set_env set_EnvMutex
     clusters nodepools operations env EnvMutex trace
     ioutil_TempFile_result io_Copy_result google_DefaultTokenSource_result
     raw_New_result].

(** The events that [t] has on top of [tr], the earliest first. *)
Ltac events_on_top t tr acc :=
  lazymatch t with
  | tr => acc
  | ?e :: ?t' => events_on_top t' tr constr:(e :: acc)
  end.

(** While another call holds the mutex, the call waits in [Lock]: it has done
    nothing yet. *)
Lemma getServiceClient_waits (ext : Externals) (st : state) (w : World) :
  EnvMutex w = true → getServiceClient ext st w = (Aborted Deadlock, w).
Proof.
  intros Hheld. destruct w as [cs nps ops en mu tr]. cbn in Hheld. subst mu.
  reflexivity.
Qed.

(** C9.  Entered with the mutex free, [getServiceClient] returns on every
    path (it never aborts: neither a deadlock nor an unlock of a mutex that
    is not held).  Its first event is the one [Lock].  There is exactly one
    [Unlock], and it happens before any construction of the client; the mutex
    is free at the end.  Whenever the call has set the credential variable,
    the variable is unset again, both before any construction of the client
    and at the end, and nothing else of the environment has changed; when the
    call has not set it, the environment is as it was.  On the path that
    returns a service, the client has been constructed. *)
Theorem getServiceClient_unsets_and_unlocks_once
    (ext : Externals) (st : state) (w : World) :
  EnvMutex w = false →
  ∃ res w' ev,
    getServiceClient ext st w = (Done res, w') ∧
    events_between w w' ev ∧
    head ev = Some EvLock ∧
    count is_lock ev = 1%nat ∧
    count is_unlock ev = 1%nat ∧
    count is_unlock (before_client ev) = 1%nat ∧
    EnvMutex w' = false ∧
    variable_set (before_client ev) = false ∧
    variable_set ev = false ∧
    (count is_setenv ev ≠ 0%nat → env w' !! defaultCredentialEnv = None) ∧
    (count is_setenv ev = 0%nat → env w' = env w) ∧
    (∀ key, key ≠ defaultCredentialEnv → env w' !! key = env w !! key) ∧
    (is_Some res.1 → res.2 = None ∧ count is_client ev = 2%nat).
Proof.
  intros Hfree. destruct ext as [tf cp ts nw]. destruct w as [cs nps ops en mu tr].
  cbn in Hfree. subst mu. proc_eval.
  destruct (nonempty (CredentialPath st));
    (destruct (nonempty (CredentialContent st));
     [destruct tf as [file|err]; [destruct cp as [err|]|]|]);
    proc_eval;
    try (match goal with |- context [ts ?x] => destruct (ts x) as [tok|err] end;
         proc_eval;
         try (match goal with |- context [nw ?x] => destruct (nw x) as [svc|err] end;
              proc_eval)).
  all: match goal with
       | |- context [mkWorld _ _ _ _ _ ?t] =>
           let ev := events_on_top t tr constr:(@nil event) in
           eexists _, _, ev
       end.
  all: split; [reflexivity|].
  all: split; [reflexivity|].
  all: do 7 (split; [reflexivity|]).
  all: cbn [env].
  all: split; [intros Hset; try (by destruct Hset); by rewrite lookup_delete_eq|].
  all: split; [intros Hset; try discriminate Hset; reflexivity|].
  all: split; [intros key Hkey;
               rewrite ?lookup_delete_ne, ?lookup_insert_ne by done; reflexivity|].
  all: cbn; intros [service Hservice]; try discriminate Hservice.
  all: split; reflexivity.
Qed.

Lemma getServiceClient_unsets_and_unlocks_once_witness :
  let w := world_answering [] [] [] in
  EnvMutex w = false ∧
  ∃ res w' ev,
    getServiceClient externals_ok credential_state w = (Done res, w') ∧
    events_between w w' ev ∧
    head ev = Some EvLock ∧
    count is_lock ev = 1%nat ∧
    count is_unlock ev = 1%nat ∧
    count is_unlock (before_client ev) = 1%nat ∧
    EnvMutex w' = false ∧
    variable_set (before_client ev) = false ∧
    variable_set ev = false ∧
    (count is_setenv ev ≠ 0%nat → env w' !! defaultCredentialEnv = None) ∧
    (count is_setenv ev = 0%nat → env w' = env w) ∧
    (∀ key, key ≠ defaultCredentialEnv → env w' !! key = env w !! key) ∧
    (is_Some res.1 → res.2 = None ∧ count is_client ev = 2%nat).
Proof.
  intros w. split; [reflexivity|].
  apply (getServiceClient_unsets_and_unlocks_once externals_ok credential_state w).
  reflexivity.
Defined.

(** The run with an inline credential and every outside call succeeding. *)
Example getServiceClient_inline_credential :
  let '(res, w') := getServiceClient externals_ok credential_state (world_answering [] [] []) in
  res = Done (Some (raw.mkService "https://container.googleapis.com/"), None) ∧
  rev (trace w')
  = [EvLock;
     EvTempFile "" "credential-file";
     EvCopy "/tmp/credential-file123" "{}";
     EvSetenv "GOOGLE_APPLICATION_CREDENTIALS" "/tmp/credential-file123";
     EvDefaultTokenSource (Some "/tmp/credential-file123");
     EvUnsetenv "GOOGLE_APPLICATION_CREDENTIALS";
     EvUnlock;
     EvNewClient;
     EvNew;
     EvClose "/tmp/credential-file123";
     EvRemove "/tmp/credential-file123";
     EvUnsetenv "GOOGLE_APPLICATION_CREDENTIALS"] ∧
  env w' = ∅ ∧ EnvMutex w' = false.
Proof. vm_compute. repeat split. Qed.

(** The run in which writing the temporary file fails. *)
Example getServiceClient_copy_fails :
  let ext := mkExternals (inl (mkFile "/tmp/credential-file123")) (Some "no space left on device")
               (λ credentials, inl (mkTokenSource credentials))
               (λ _, inl (raw.mkService "")) in
  let '(res, w') := getServiceClient ext credential_state (world_answering [] [] []) in
  res = Done (None, Some "no space left on device") ∧
  rev (trace w')
  = [EvLock;
     EvTempFile "" "credential-file";
     EvCopy "/tmp/credential-file123" "{}";
     EvClose "/tmp/credential-file123";
     EvRemove "/tmp/credential-file123";
     EvUnlock].
Proof. vm_compute. repeat split. Qed.

(** ** The lifecycle operations *)

(** A program that only returns leaves the world as it is. *)
Lemma run_Ret {R : Type} (r : R) (w : World) : run (Ret r) w ≈ Ret (w, r).
Proof. unfold run. rewrite interp_state_ret. reflexivity. Qed.

(** The result of a run is unique. *)
Lemma run_Ret_inv {R : Type} (r r' : R) (w w' : World) :
  run (Ret r) w ≈ Ret (w', r') → w' = w ∧ r' = r.
Proof.
  rewrite run_Ret. intros H. apply eutt_inv_Ret in H. by injection H as <- <-.
Qed.

Lemma events_between_same (w : World) (ev : list event) :
  events_between w w ev → ev = [].
Proof.
  unfold events_between. intros H.
  assert (Hlen : length (trace w) = length (rev ev ++ trace w)) by (by rewrite <- H).
  rewrite length_app, length_rev in Hlen.
  destruct ev; [reflexivity | cbn in Hlen; lia].
Qed.

(** C10.  Whatever the cluster-info record, the option bag, the node count
    and the version passed, each of the eight operations is the program that
    returns its constants at once: an empty cluster-info record and no error
    for [Create], [Update] and [PostCheck], a node count of zero and no error
    for [GetClusterSize], an empty version and no error for [GetVersion], no
    error for [Remove], [SetClusterSize] and [SetVersion].  Run in any
    world, it leaves the world as it is: no call of the provider, nothing
    logged, no answer of the provider consumed. *)
Theorem lifecycle_operations_are_constant
    (info : option types.ClusterInfo) (opts : option types.DriverOptions)
    (count : option types.NodeCount_) (version : option types.KubernetesVersion)
    (w : World) :
  (Create opts info = Ret (Some types.ClusterInfo_zero, None) ∧
   Update info opts = Ret (Some types.ClusterInfo_zero, None) ∧
   PostCheck info = Ret (Some types.ClusterInfo_zero, None) ∧
   Remove info = Ret None ∧
   GetClusterSize info = Ret (Some {| types.Count := 0 |}, None) ∧
   GetVersion info = Ret (Some {| types.kv_Version := "" |}, None) ∧
   SetClusterSize info count = Ret None ∧
   SetVersion info version = Ret None) ∧
  (run (Create opts info) w ≈ Ret (w, (Some types.ClusterInfo_zero, None)) ∧
   run (Update info opts) w ≈ Ret (w, (Some types.ClusterInfo_zero, None)) ∧
   run (PostCheck info) w ≈ Ret (w, (Some types.ClusterInfo_zero, None)) ∧
   run (Remove info) w ≈ Ret (w, None) ∧
   run (GetClusterSize info) w ≈ Ret (w, (Some {| types.Count := 0 |}, None)) ∧
   run (GetVersion info) w ≈ Ret (w, (Some {| types.kv_Version := "" |}, None)) ∧
   run (SetClusterSize info count) w ≈ Ret (w, None) ∧
   run (SetVersion info version) w ≈ Ret (w, None)).
Proof.
  split; [repeat split|].
  unfold Create, Update, PostCheck, Remove, GetClusterSize, GetVersion,
    SetClusterSize, SetVersion.
  repeat split; apply run_Ret.
Qed.

(** The operations return their constants also where decoding the options
    fails, and where the stored state is corrupt. *)
Example Create_ignores_invalid_options :
  snd <$> getStateFromOpts options_GetValueFromDriverOptions empty_options
  = Some (Some "project ID is required") ∧
  Create (Some empty_options) None = Ret (Some types.ClusterInfo_zero, None) ∧
  Update (Some corrupt_info) (Some empty_options) = Ret (Some types.ClusterInfo_zero, None) ∧
  GetClusterSize (Some corrupt_info) = Ret (Some {| types.Count := 0 |}, None).
Proof. split; [vm_compute; reflexivity | repeat split]. Qed.

(** C7, as amended.  [Remove] returns no error in every world, so also where
    the provider's delete would report that the cluster does not exist; it
    does not call the provider, whose answers stay unread, and the world is
    left as it is. *)
Theorem Remove_succeeds_without_deleting (info : option types.ClusterInfo) (w : World) :
  Remove info = Ret None ∧ run (Remove info) w ≈ Ret (w, None).
Proof. split; [reflexivity | apply run_Ret]. Qed.

(** C7, as stated, fails: in a world where the provider's delete fails with
    an error that is not "notFound", [Remove] does not return an error. *)
Lemma Remove_hides_delete_failure :
  let w := world_answering [] [] [inr "googleapi: Error 403: forbidden"] in
  operations w = [inr "googleapi: Error 403: forbidden"] ∧
  strings_Contains "googleapi: Error 403: forbidden" "notFound" = false ∧
  ¬ ∃ w' err, run (Remove (Some corrupt_info)) w ≈ Ret (w', Some err).
Proof.
  intros w. split; [reflexivity|]. split; [reflexivity|].
  intros (w' & err & Hrun). apply run_Ret_inv in Hrun as [_ Herr]. discriminate Herr.
Qed.

(** C8, as amended.  [Update] performs no sub-operation, whatever the
    cluster-info record and the option bag: it returns an empty cluster-info
    record and no error at once, and in any world it leaves the world as it
    is, so that the events of its run are none. *)
Theorem Update_performs_no_sub_operation
    (info : option types.ClusterInfo) (opts : option types.DriverOptions) (w : World) :
  Update info opts = Ret (Some types.ClusterInfo_zero, None) ∧
  run (Update info opts) w ≈ Ret (w, (Some types.ClusterInfo_zero, None)) ∧
  events_between w w [] ∧
  sub_operations [] = [].
Proof. split; [reflexivity|]. split; [apply run_Ret|]. split; reflexivity. Qed.

(** C8, as stated, fails: the option bag decodes to a record with a master
    version, a node version and a node count, for which the three
    sub-operations are asked in this order, and no run of [Update] performs
    them. *)
Lemma Update_skips_requested_sub_operations :
  let w := world_answering [inl (cluster_in "RUNNING")] [inl (nodepool_in "RUNNING")]
             [inl (raw.mkOperation 200); inl (raw.mkOperation 200);
              inl (raw.mkOperation 200)] in
  getStateFromOpts options_GetValueFromDriverOptions update_options
  = Some (update_state, None) ∧
  requested_sub_operations update_state
  = [MasterVersionUpdate; NodeVersionUpdate; NodeCountUpdate] ∧
  ¬ ∃ w' r ev,
      run (Update (Some corrupt_info) (Some update_options)) w ≈ Ret (w', r) ∧
      events_between w w' ev ∧
      sub_operations ev = requested_sub_operations update_state.
Proof.
  intros w. split; [vm_compute; reflexivity|]. split; [reflexivity|].
  intros (w' & r & ev & Hrun & Hev & Hops).
  apply run_Ret_inv in Hrun as [-> _].
  apply events_between_same in Hev as ->. discriminate Hops.
Qed.

(** * Further properties *)

(** ** Splitting and the label loop *)

Lemma strings_Split_length (s : string) (sep : ascii) :
  length (strings_Split s sep) = S (count_byte sep s).
Proof.
  induction s as [|a s IH]; [reflexivity|]. cbn [strings_Split count_byte].
  destruct (Ascii.eqb a sep); cbn [length].
  - by rewrite IH.
  - destruct (strings_Split s sep) as [|piece pieces]; [discriminate IH|].
    cbn [length] in *. lia.
Qed.

Lemma strings_Split_one (s : string) (sep : ascii) (piece : string) :
  strings_Split s sep = [piece] ↔ piece = s ∧ count_byte sep s = 0%nat.
Proof.
  revert piece. induction s as [|a s IH]; intros piece; cbn [strings_Split count_byte].
  - split; [by intros [= <-] | by intros [-> _]].
  - destruct (Ascii.eqb a sep).
    + split; [|intros [_ H]; discriminate H].
      intros [= <- H]. pose proof (strings_Split_length s sep) as Hl.
      rewrite H in Hl. discriminate Hl.
    + destruct (strings_Split s sep) as [|p ps] eqn:Hs.
      { pose proof (strings_Split_length s sep) as Hl. rewrite Hs in Hl. discriminate Hl. }
      split.
      * intros [= <- ->]. destruct (proj1 (IH p) eq_refl) as [-> H0]. by split.
      * intros [-> H0]. pose proof (proj2 (IH s) (conj eq_refl H0)) as H.
        injection H as -> ->. reflexivity.
Qed.

(** X1.  Splitting on a byte gives exactly two pieces [k] and [v] when, and
    only when, the string is [k], the byte, [v], with the byte in neither. *)
Theorem strings_Split_two (s : string) (sep : ascii) (k v : string) :
  strings_Split s sep = [k; v]
  ↔ s = k +:+ String sep v ∧ count_byte sep k = 0%nat ∧ count_byte sep v = 0%nat.
Proof.
  revert k. induction s as [|a s IH]; intros k; cbn [strings_Split].
  - split; [discriminate|]. intros [H _]. by destruct k.
  - destruct (Ascii.eqb_spec a sep) as [->|Hne].
    + split.
      * intros [= <- H]. apply strings_Split_one in H as [-> H0]. by repeat split.
      * intros (H & Hk & Hv). destruct k as [|b k].
        -- cbn in H. injection H as ->.
           by rewrite (proj2 (strings_Split_one v sep v) (conj eq_refl Hv)).
        -- cbn in H. injection H as <- _. cbn [count_byte] in Hk.
           rewrite Ascii.eqb_refl in Hk. discriminate Hk.
    + destruct (strings_Split s sep) as [|p ps] eqn:Hs.
      { pose proof (strings_Split_length s sep) as Hl. rewrite Hs in Hl. discriminate Hl. }
      split.
      * intros [= <- ->]. destruct (proj1 (IH p) eq_refl) as (-> & Hp & Hv).
        repeat split; [|exact Hv]. cbn [count_byte].
        apply Ascii.eqb_neq in Hne. by rewrite Hne.
      * intros (H & Hk & Hv). destruct k as [|b k].
        -- cbn in H. injection H as -> _. congruence.
        -- cbn in H. injection H as <- ->. cbn [count_byte] in Hk.
           destruct (Ascii.eqb a sep); [discriminate Hk|].
           pose proof (proj2 (IH k) (conj eq_refl (conj Hk Hv))) as H.
           injection H as -> ->. reflexivity.
Qed.

Lemma add_labels_app (m : gmap string string) (parts parts' : list string) :
  add_labels m (parts ++ parts') = add_labels (add_labels m parts) parts'.
Proof.
  revert m. induction parts as [|part parts IH]; intros m; [reflexivity|].
  cbn [app add_labels].
  destruct (strings_Split part "="%char) as [|? [|? [|? ?]]]; apply IH.
Qed.

Lemma strings_Split_joined (sep : ascii) (k v : string) :
  count_byte sep k = 0%nat →
  count_byte sep v = 0%nat →
  strings_Split (k +:+ String sep v) sep = [k; v].
Proof.
  intros Hk Hv. induction k as [|b k IH].
  - change ("" +:+ String sep v) with (String sep v). cbn [strings_Split].
    rewrite Ascii.eqb_refl.
    by rewrite (proj2 (strings_Split_one v sep v) (conj eq_refl Hv)).
  - change (String b k +:+ String sep v) with (String b (k +:+ String sep v)).
    cbn [strings_Split]. cbn [count_byte] in Hk.
    destruct (Ascii.eqb b sep); [discriminate Hk|].
    by rewrite (IH Hk).
Qed.

Lemma add_labels_filter (m : gmap string string) (parts : list string) :
  add_labels m parts = add_labels m (List.filter well_formed_label parts).
Proof.
  revert m. induction parts as [|part parts IH]; intros m; [reflexivity|].
  cbn [add_labels List.filter]. unfold well_formed_label at 1.
  pose proof (strings_Split_length part "="%char) as Hl.
  destruct (strings_Split part "="%char) as [|k [|v [|? ?]]] eqn:Hs; cbn [length] in Hl.
  - discriminate Hl.
  - injection Hl as <-. cbn. apply IH.
  - injection Hl as <-. cbn [Nat.eqb add_labels]. rewrite Hs. apply IH.
  - injection Hl as <-. cbn. apply IH.
Qed.

(** X2.  The label loop drops every part that does not have exactly one
    "=" (none, or two and more): the labels are those of the well-formed
    parts alone. *)
Theorem add_labels_drops_malformed (m : gmap string string) (parts : list string) :
  add_labels m parts = add_labels m (List.filter well_formed_label parts).
Proof.
  apply add_labels_filter.
Qed.

(** X3.  A part [k=v] with no "=" in [k] or in [v] sets the label [k] to [v],
    and of the parts with the same key the last one wins: after it, the
    label is [v] whatever came before. *)
Theorem add_labels_last_wins (m : gmap string string) (parts : list string) (k v : string) :
  count_byte "="%char k = 0%nat →
  count_byte "="%char v = 0%nat →
  add_labels m (parts ++ [k +:+ String "="%char v]) = <[k := v]> (add_labels m parts) ∧
  add_labels m (parts ++ [k +:+ String "="%char v]) !! k = Some v.
Proof.
  intros Hk Hv.
  assert (Hstep : add_labels m (parts ++ [k +:+ String "="%char v])
                  = <[k := v]> (add_labels m parts)).
  { rewrite add_labels_app. cbn [add_labels].
    by rewrite (strings_Split_joined "="%char k v Hk Hv). }
  split; [exact Hstep|]. rewrite Hstep. apply lookup_insert_eq.
Qed.

Lemma add_labels_last_wins_witness :
  add_labels {[ "tier" := "old" ]} (["tier=web"; "broken"] ++ ["tier" +:+ String "="%char "db"])
    !! "tier" = Some "db".
Proof.
  apply (add_labels_last_wins {[ "tier" := "old" ]} ["tier=web"; "broken"] "tier" "db");
    reflexivity.
Defined.

(** ** The decoder *)

(** The decoded record, field by field. *)
Lemma getStateFromOpts_record
    (G : types.DriverOptions → types.OptionType → list string → iface)
    (opts : types.DriverOptions) :
  library_typed G →
  ∃ (d : state) (nc : raw.NodeConfig) (locations labelValues : types.StringSlice),
    getStateFromOpts G opts = Some (d, validate d) ∧
    G opts types.StringType ["name"] = i_string (Name d) ∧
    G opts types.StringType ["display-name"; "displayName"] = i_string (DisplayName d) ∧
    G opts types.StringType ["project-id"; "projectId"] = i_string (ProjectID d) ∧
    G opts types.StringType ["zone"] = i_string (Zone d) ∧
    G opts types.StringType ["nodePool"] = i_string (NodePoolID d) ∧
    G opts types.StringType ["cluster-ipv4-cidr"; "clusterIpv4Cidr"]
      = i_string (ClusterIpv4Cidr d) ∧
    G opts types.StringType ["description"] = i_string (Description d) ∧
    G opts types.StringType ["master-version"; "masterVersion"] = i_string (MasterVersion d) ∧
    G opts types.StringType ["node-version"; "nodeVersion"] = i_string (NodeVersion d) ∧
    G opts types.StringType ["gke-credential-path"] = i_string (CredentialPath d) ∧
    G opts types.StringType ["credential"] = i_string (CredentialContent d) ∧
    G opts types.StringType ["network"] = i_string (Network d) ∧
    G opts types.StringType ["subNetwork"] = i_string (SubNetwork d) ∧
    G opts types.StringType ["maintenance-window"; "maintenanceWindow"]
      = i_string (MaintenanceWindow d) ∧
    G opts types.IntType ["node-count"; "nodeCount"] = i_int64 (NodeCount d) ∧
    G opts types.BoolType ["enable-alpha-feature"; "enableAlphaFeature"]
      = i_bool (EnableAlphaFeature d) ∧
    G opts types.BoolType ["kubernetes-dashboard"; "enableKubernetesDashboard"]
      = i_bool (EnableKubernetesDashboard d) ∧
    G opts types.BoolType ["legacy-authorization"; "enableLegacyAbac"]
      = i_bool (LegacyAbac d) ∧
    EnableHorizontalPodAutoscaling d
      = assert_bool_ptr_ok (G opts types.BoolPointerType ["enableHorizontalPodAutoscaling"]) ∧
    EnableNetworkPolicyConfig d
      = assert_bool_ptr_ok (G opts types.BoolPointerType ["enableNetworkPolicyConfig"]) ∧
    EnableHTTPLoadBalancing d
      = assert_bool_ptr_ok (G opts types.BoolPointerType
                              ["enable-http-load-balancing"; "enableHttpLoadBalancing"]) ∧
    EnableStackdriverLogging d
      = assert_bool_ptr_ok (G opts types.BoolPointerType
                              ["enable-stackdriver-logging"; "enableStackdriverLogging"]) ∧
    EnableStackdriverMonitoring d
      = assert_bool_ptr_ok (G opts types.BoolPointerType
                              ["enable-stackdriver-monitoring"; "enableStackdriverMonitoring"]) ∧
    MasterAuth d = None ∧
    ClusterInfo d = set_Metadata types.ClusterInfo_zero (Some ∅) ∧
    G opts types.StringSliceType ["locations"] = i_StringSlice_ptr (Some locations) ∧
    Locations d = types.Value locations ∧
    NodeConfig d = Some nc ∧
    G opts types.IntType ["disk-size-gb"; "diskSizeGb"] = i_int64 (raw.DiskSizeGb nc) ∧
    G opts types.StringType ["machine-type"; "machineType"] = i_string (raw.MachineType nc) ∧
    G opts types.StringType ["imageType"] = i_string (raw.ImageType nc) ∧
    G opts types.StringSliceType ["labels"] = i_StringSlice_ptr (Some labelValues) ∧
    raw.Labels nc = Some (add_labels ∅ (types.Value labelValues)).
Proof.
  intros H. unfold getStateFromOpts. cbv zeta.
  lookup_typed G H. cbn [assert_string assert_int64 assert_bool assert_StringSlice_ptr
                        mbind option_bind fmap option_fmap option_map].
  eexists _, _, _, _. split; [reflexivity|].
  cbn [Name DisplayName ProjectID Zone NodePoolID ClusterIpv4Cidr Description
       MasterVersion NodeVersion CredentialPath CredentialContent Network SubNetwork
       MaintenanceWindow NodeCount EnableAlphaFeature EnableKubernetesDashboard LegacyAbac
       EnableHorizontalPodAutoscaling EnableNetworkPolicyConfig EnableHTTPLoadBalancing
       EnableStackdriverLogging EnableStackdriverMonitoring MasterAuth ClusterInfo
       Locations NodeConfig].
  rewrite append_loop.
  repeat (split; [reflexivity|]). reflexivity.
Qed.

(** X4.  Decoding reports the first missing field only, in the order project
    id, zone, name, and with it the record it decoded: an empty project id
    gives "project ID is required" whatever the zone and the name are, an
    empty zone gives "zone is required" when the project id is there, and an
    empty name gives "cluster name is required" when both are there. *)
Theorem getStateFromOpts_reports_first_missing
    (G : types.DriverOptions → types.OptionType → list string → iface)
    (opts : types.DriverOptions) :
  library_typed G →
  ∃ d : state,
    getStateFromOpts G opts = Some (d, validate d) ∧
    G opts types.StringType ["project-id"; "projectId"] = i_string (ProjectID d) ∧
    G opts types.StringType ["zone"] = i_string (Zone d) ∧
    G opts types.StringType ["name"] = i_string (Name d) ∧
    (ProjectID d = "" → validate d = Some "project ID is required") ∧
    (ProjectID d ≠ "" → Zone d = "" → validate d = Some "zone is required") ∧
    (ProjectID d ≠ "" → Zone d ≠ "" → Name d = "" →
       validate d = Some "cluster name is required").
Proof.
  intros H.
  destruct (getStateFromOpts_record G opts H)
    as (d & nc & locations & labelValues & Hd & Hname & _ & Hproject & Hzone & _).
  exists d. do 4 (split; [assumption|]). unfold validate, fmt_Errorf.
  destruct (String.eqb_spec (ProjectID d) ""), (String.eqb_spec (Zone d) ""),
    (String.eqb_spec (Name d) ""); repeat split; intros; congruence.
Qed.

Lemma getStateFromOpts_reports_first_missing_witness :
  library_typed options_GetValueFromDriverOptions ∧
  ∃ d : state,
    getStateFromOpts options_GetValueFromDriverOptions empty_options
      = Some (d, validate d) ∧
    validate d = Some "project ID is required".
Proof.
  assert (Htyped : library_typed options_GetValueFromDriverOptions).
  { intros opts keys. repeat split; eexists; reflexivity. }
  split; [exact Htyped|].
  destruct (getStateFromOpts_reports_first_missing
              options_GetValueFromDriverOptions empty_options Htyped)
    as (d & Hd & Hproject & _ & _ & Hfirst & _).
  exists d. split; [exact Hd|]. apply Hfirst.
  assert (Hempty : i_string "" = i_string (ProjectID d)) by exact Hproject.
  by injection Hempty as <-.
Defined.

(** X5.  Whatever the option bag, the decoded record has no master auth, a
    node config that is not nil and whose label map is not nil (it holds the
    labels of the well-formed parts of the "labels" slice), a copy of the
    "locations" slice, and an empty cluster-info record whose metadata is an
    empty map that is not nil; each tri-state toggle is the pointer the
    library returned, and nil when the library returned anything else. *)
Theorem getStateFromOpts_shape
    (G : types.DriverOptions → types.OptionType → list string → iface)
    (opts : types.DriverOptions) :
  library_typed G →
  ∃ (d : state) (nc : raw.NodeConfig) (locations labelValues : types.StringSlice),
    getStateFromOpts G opts = Some (d, validate d) ∧
    MasterAuth d = None ∧
    NodeConfig d = Some nc ∧
    G opts types.StringSliceType ["labels"] = i_StringSlice_ptr (Some labelValues) ∧
    raw.Labels nc
      = Some (add_labels ∅ (List.filter well_formed_label (types.Value labelValues))) ∧
    G opts types.StringSliceType ["locations"] = i_StringSlice_ptr (Some locations) ∧
    Locations d = types.Value locations ∧
    ClusterInfo d = set_Metadata types.ClusterInfo_zero (Some ∅) ∧
    (∀ x, (∀ p, x ≠ i_bool_ptr p) → assert_bool_ptr_ok x = None) ∧
    EnableHTTPLoadBalancing d
      = assert_bool_ptr_ok (G opts types.BoolPointerType
                              ["enable-http-load-balancing"; "enableHttpLoadBalancing"]) ∧
    EnableHorizontalPodAutoscaling d
      = assert_bool_ptr_ok (G opts types.BoolPointerType ["enableHorizontalPodAutoscaling"]) ∧
    EnableNetworkPolicyConfig d
      = assert_bool_ptr_ok (G opts types.BoolPointerType ["enableNetworkPolicyConfig"]) ∧
    EnableStackdriverLogging d
      = assert_bool_ptr_ok (G opts types.BoolPointerType
                              ["enable-stackdriver-logging"; "enableStackdriverLogging"]) ∧
    EnableStackdriverMonitoring d
      = assert_bool_ptr_ok (G opts types.BoolPointerType
                              ["enable-stackdriver-monitoring"; "enableStackdriverMonitoring"]).
Proof.
  intros H.
  destruct (getStateFromOpts_record G opts H)
    as (d & nc & locations & labelValues & Hd & _ & _ & _ & _ & _ & _ & _ & _ & _ & _
        & _ & _ & _ & _ & _ & _ & _ & _ & Hhpa & Hnpc & Hhlb & Hlog & Hmon & Hauth
        & Hinfo & Hloc & Hlocs & Hnc & _ & _ & _ & Hlab & Hlabels).
  exists d, nc, locations, labelValues.
  rewrite <- add_labels_filter.
  repeat (split; [assumption|]).
  split; [|by repeat split].
  intros x Hx. destruct x; try reflexivity. by destruct (Hx p).
Qed.

Lemma getStateFromOpts_shape_witness :
  library_typed options_GetValueFromDriverOptions ∧
  ∃ (d : state) (nc : raw.NodeConfig),
    getStateFromOpts options_GetValueFromDriverOptions scenario_options
      = Some (d, validate d) ∧
    NodeConfig d = Some nc ∧ raw.Labels nc = Some ∅ ∧ Locations d = [] ∧
    EnableHTTPLoadBalancing d = None.
Proof.
  assert (Htyped : library_typed options_GetValueFromDriverOptions).
  { intros opts keys. repeat split; eexists; reflexivity. }
  split; [exact Htyped|].
  destruct (getStateFromOpts_shape options_GetValueFromDriverOptions scenario_options Htyped)
    as (d & nc & locations & labelValues & Hd & _ & Hnc & Hlab & Hlabels & Hloc & Hlocs
        & _ & _ & Hhlb & _).
  exists d, nc. split; [exact Hd|]. split; [exact Hnc|].
  vm_compute in Hlab. injection Hlab as <-.
  vm_compute in Hloc. injection Hloc as <-.
  split; [exact Hlabels|]. split; [exact Hlocs|]. exact Hhlb.
Defined.

(** ** The create-request builder, further *)

(** X6.  Beyond the copied fields the request carries: a maintenance policy
    exactly when the maintenance window is not empty, with the window as the
    start time of the daily window; one resource label, "display-name", with
    the lower-cased display name; the user name "admin" with no password; and
    no status and no endpoint. *)
Theorem request_policy_label_and_auth
    (strings_ToLower : string → string) (st : state) :
  ∃ cluster labels auth,
    raw.Cluster_ (generateClusterCreateRequest strings_ToLower st) = Some cluster ∧
    (MaintenanceWindow st = "" → raw.MaintenancePolicy_ cluster = None) ∧
    (MaintenanceWindow st ≠ "" →
       raw.MaintenancePolicy_ cluster
       = Some {| raw.Window := Some {| raw.DailyMaintenanceWindow_ :=
                   Some {| raw.StartTime := MaintenanceWindow st |} |} |}) ∧
    raw.ResourceLabels cluster = Some labels ∧
    labels !! "display-name" = Some (strings_ToLower (DisplayName st)) ∧
    (∀ key, key ≠ "display-name" → labels !! key = None) ∧
    raw.MasterAuth_ cluster = Some auth ∧
    raw.Username auth = "admin" ∧ raw.Password auth = "" ∧
    raw.Status cluster = "" ∧ raw.Endpoint cluster = "".
Proof.
  unfold generateClusterCreateRequest.
  eexists _, _, _. split; [reflexivity|].
  cbn [raw.MaintenancePolicy_ raw.ResourceLabels raw.MasterAuth_ raw.Status raw.Endpoint
       raw.Username raw.Password].
  split; [intros ->; reflexivity|].
  split; [intros Hw; apply nonempty_true in Hw; by rewrite Hw|].
  split; [reflexivity|].
  split; [apply lookup_singleton_eq|].
  split; [intros key Hkey; by apply lookup_singleton_ne|].
  repeat split.
Qed.

Lemma request_policy_label_and_auth_witness :
  ∃ cluster labels,
    raw.Cluster_ (generateClusterCreateRequest ascii_ToLower
                    (mkState "Demo Cluster" "p1" "z1" "" "" 3 "" None "" "c1" None "" ""
                       false None None false None [] "" "" false "" None None "03:00"
                       types.ClusterInfo_zero)) = Some cluster ∧
    raw.MaintenancePolicy_ cluster
    = Some {| raw.Window := Some {| raw.DailyMaintenanceWindow_ :=
                Some {| raw.StartTime := "03:00" |} |} |} ∧
    raw.ResourceLabels cluster = Some labels ∧
    labels !! "display-name" = Some "demo cluster" ∧
    labels !! "name" = None.
Proof.
  destruct (request_policy_label_and_auth ascii_ToLower
              (mkState "Demo Cluster" "p1" "z1" "" "" 3 "" None "" "c1" None "" ""
                 false None None false None [] "" "" false "" None None "03:00"
                 types.ClusterInfo_zero))
    as (cluster & labels & auth & Hc & _ & Hwindow & Hlabels & Hname & Hother & _).
  exists cluster, labels. split; [exact Hc|].
  split; [apply Hwindow; discriminate|].
  split; [exact Hlabels|]. split; [exact Hname|]. apply Hother. discriminate.
Defined.

(** X7.  The request depends on the record only through the fields it
    copies or translates: two records that agree on them give the same
    request, whatever their project ids, locations, node versions, master
    auths, credentials, node-pool ids and cluster-info records are. *)
Theorem request_ignores_unsent_fields
    (strings_ToLower : string → string) (st st' : state) :
  Name st = Name st' →
  Zone st = Zone st' →
  MasterVersion st = MasterVersion st' →
  NodeCount st = NodeCount st' →
  ClusterIpv4Cidr st = ClusterIpv4Cidr st' →
  Description st = Description st' →
  EnableAlphaFeature st = EnableAlphaFeature st' →
  EnableHTTPLoadBalancing st = EnableHTTPLoadBalancing st' →
  EnableHorizontalPodAutoscaling st = EnableHorizontalPodAutoscaling st' →
  EnableKubernetesDashboard st = EnableKubernetesDashboard st' →
  EnableNetworkPolicyConfig st = EnableNetworkPolicyConfig st' →
  Network st = Network st' →
  SubNetwork st = SubNetwork st' →
  LegacyAbac st = LegacyAbac st' →
  NodeConfig st = NodeConfig st' →
  DisplayName st = DisplayName st' →
  EnableStackdriverLogging st = EnableStackdriverLogging st' →
  EnableStackdriverMonitoring st = EnableStackdriverMonitoring st' →
  MaintenanceWindow st = MaintenanceWindow st' →
  generateClusterCreateRequest strings_ToLower st
  = generateClusterCreateRequest strings_ToLower st'.
Proof.
  unfold generateClusterCreateRequest. by intros -> -> -> -> -> -> -> -> -> -> -> -> -> -> -> -> -> -> ->.
Qed.

Lemma request_ignores_unsent_fields_witness :
  generateClusterCreateRequest ascii_ToLower
    (mkState "demo" "p1" "z1" "" "" 3 "1.10" None "1.9" "c1" None "/key.json" "" false
       None None false None ["z1"; "z2"] "" "" false "pool-1" None None ""
       types.ClusterInfo_zero)
  = generateClusterCreateRequest ascii_ToLower
      (mkState "demo" "other-project" "z1" "" "" 3 "1.10" None "1.10" "c1" None "" "{}" false
         None None false None [] "" "" false "" None None "" corrupt_info).
Proof.
  apply (request_ignores_unsent_fields ascii_ToLower
           (mkState "demo" "p1" "z1" "" "" 3 "1.10" None "1.9" "c1" None "/key.json" "" false
              None None false None ["z1"; "z2"] "" "" false "pool-1" None None ""
              types.ClusterInfo_zero)
           (mkState "demo" "other-project" "z1" "" "" 3 "1.10" None "1.10" "c1" None "" "{}"
              false None None false None [] "" "" false "" None None "" corrupt_info));
    reflexivity.
Defined.

(** X8.  Decoding and building compose: whatever the option bag, and whether
    or not the decoded record passes validation, the request built from it
    has the name, the zone, the master version and the node count the
    library finds under "name", "zone", "master-version" and "node-count",
    and a node config that is not nil, with the disk size, the machine type
    and the image type of the bag and a label map that is not nil. *)
Theorem request_of_decoded_options
    (G : types.DriverOptions → types.OptionType → list string → iface)
    (strings_ToLower : string → string) (opts : types.DriverOptions) :
  library_typed G →
  ∃ (d : state) (cluster : raw.Cluster) (nc : raw.NodeConfig) (labelValues : types.StringSlice),
    getStateFromOpts G opts = Some (d, validate d) ∧
    raw.Cluster_ (generateClusterCreateRequest strings_ToLower d) = Some cluster ∧
    G opts types.StringType ["name"] = i_string (raw.Name cluster) ∧
    G opts types.StringType ["zone"] = i_string (raw.Zone cluster) ∧
    G opts types.StringType ["master-version"; "masterVersion"]
      = i_string (raw.InitialClusterVersion cluster) ∧
    G opts types.IntType ["node-count"; "nodeCount"]
      = i_int64 (raw.InitialNodeCount cluster) ∧
    raw.NodeConfig_ cluster = Some nc ∧
    G opts types.IntType ["disk-size-gb"; "diskSizeGb"] = i_int64 (raw.DiskSizeGb nc) ∧
    G opts types.StringType ["machine-type"; "machineType"] = i_string (raw.MachineType nc) ∧
    G opts types.StringType ["imageType"] = i_string (raw.ImageType nc) ∧
    G opts types.StringSliceType ["labels"] = i_StringSlice_ptr (Some labelValues) ∧
    raw.Labels nc = Some (add_labels ∅ (types.Value labelValues)).
Proof.
  intros H.
  destruct (getStateFromOpts_record G opts H)
    as (d & nc & locations & labelValues & Hd & Hname & _ & _ & Hzone & _ & _ & _
        & Hmaster & _ & _ & _ & _ & _ & _ & Hcount & _ & _ & _ & _ & _ & _ & _ & _ & _
        & _ & _ & _ & Hnc & Hdisk & Hmachine & Himage & Hlab & Hlabels).
  eexists d, _, nc, labelValues. split; [exact Hd|].
  unfold generateClusterCreateRequest. split; [reflexivity|].
  cbn [raw.Name raw.Zone raw.InitialClusterVersion raw.InitialNodeCount raw.NodeConfig_].
  repeat (split; [assumption|]). assumption.
Qed.

Lemma request_of_decoded_options_witness :
  library_typed options_GetValueFromDriverOptions ∧
  ∃ (d : state) (cluster : raw.Cluster),
    getStateFromOpts options_GetValueFromDriverOptions empty_options = Some (d, validate d) ∧
    validate d = Some "project ID is required" ∧
    raw.Cluster_ (generateClusterCreateRequest ascii_ToLower d) = Some cluster ∧
    raw.InitialNodeCount cluster = 0 ∧ raw.NodeConfig_ cluster ≠ None.
Proof.
  assert (Htyped : library_typed options_GetValueFromDriverOptions).
  { intros opts keys. repeat split; eexists; reflexivity. }
  split; [exact Htyped|].
  destruct (request_of_decoded_options options_GetValueFromDriverOptions ascii_ToLower
              empty_options Htyped)
    as (d & cluster & nc & labelValues & Hd & Hc & _ & _ & _ & Hcount & Hnc & _).
  exists d, cluster. split; [exact Hd|].
  assert (Hrun : snd <$> getStateFromOpts options_GetValueFromDriverOptions empty_options
                 = Some (Some "project ID is required")) by (vm_compute; reflexivity).
  rewrite Hd in Hrun. injection Hrun as Hrun.
  assert (Hzero : i_int64 0 = i_int64 (raw.InitialNodeCount cluster)) by exact Hcount.
  injection Hzero as <-.
  split; [exact Hrun|]. split; [exact Hc|]. split; [reflexivity|].
  rewrite Hnc. discriminate.
Defined.

(** ** The state codec, further *)

Lemma stored_metadata_lookup (m : gmap string string) (bytes project zone key : string) :
  <["zone" := zone]> (<["project-id" := project]> (<["state" := bytes]> m)) !! key
  = if decide (key = "zone") then Some zone
    else if decide (key = "project-id") then Some project
    else if decide (key = "state") then Some bytes
    else m !! key.
Proof.
  repeat case_decide; subst.
  - apply lookup_insert_eq.
  - rewrite lookup_insert_ne by done. apply lookup_insert_eq.
  - rewrite !lookup_insert_ne by done. apply lookup_insert_eq.
  - by rewrite !lookup_insert_ne.
Qed.

(** X9.  After a [storeState] whose marshalling succeeds, the metadata map is
    not nil (also when it was nil before); it holds the marshalled bytes under
    "state", the project id under "project-id" and the zone under "zone";
    every other key reads as before; the other fields of the cluster-info
    record are untouched; and [getState] on the result decodes exactly the
    marshalled bytes, into a zero record. *)
Theorem storeState_writes_three_keys
    (json_Marshal : state → string + error)
    (json_Unmarshal : string → state → state * option error)
    (info : types.ClusterInfo) (st : state) (bytes : string) :
  json_Marshal st = inl bytes →
  ∃ info' m',
    storeState json_Marshal info st = (info', None) ∧
    types.Metadata info' = Some m' ∧
    m' !! "state" = Some bytes ∧
    m' !! "project-id" = Some (ProjectID st) ∧
    m' !! "zone" = Some (Zone st) ∧
    (∀ key, key ≠ "state" → key ≠ "project-id" → key ≠ "zone" →
       m' !! key = types.Metadata info ≫= (.!! key)) ∧
    set_Metadata info' (types.Metadata info) = info ∧
    getState json_Unmarshal info' = json_Unmarshal bytes state_zero.
Proof.
  intros Hm. unfold storeState, getState. rewrite Hm.
  eexists _, _. split; [reflexivity|]. cbn [types.Metadata set_Metadata].
  split; [reflexivity|].
  rewrite !stored_metadata_lookup. cbn. do 3 (split; [reflexivity|]).
  split.
  - intros key H1 H2 H3. rewrite stored_metadata_lookup.
    repeat case_decide; try done. by destruct (types.Metadata info).
  - split; [by destruct info|].
    unfold map_index. cbn. by rewrite stored_metadata_lookup.
Qed.

Lemma storeState_writes_three_keys_witness :
  sample_Marshal scenario_state = inl "{c1}" ∧
  ∃ info' m',
    storeState sample_Marshal types.ClusterInfo_zero scenario_state = (info', None) ∧
    types.Metadata info' = Some m' ∧
    m' !! "state" = Some "{c1}" ∧
    m' !! "project-id" = Some "p1" ∧
    m' !! "zone" = Some "z1" ∧
    getState sample_Unmarshal info' = (state_zero, None).
Proof.
  split; [reflexivity|].
  destruct (storeState_writes_three_keys sample_Marshal sample_Unmarshal
              types.ClusterInfo_zero scenario_state "{c1}" eq_refl)
    as (info' & m' & Hs & Hm & H1 & H2 & H3 & _ & _ & Hg).
  exists info', m'. repeat (split; [assumption|]). exact Hg.
Defined.



(** X11.  [getState] reads the "state" entry of the metadata and nothing
    else: two cluster-info records whose "state" entries read the same
    restore the same record, so the "project-id" and "zone" entries and the
    typed fields play no part; and with a nil metadata map, or with no
    "state" entry, it decodes the empty input. *)
Theorem getState_reads_state_entry_only
    (json_Unmarshal : string → state → state * option error)
    (info info' : types.ClusterInfo) :
  (map_index (types.Metadata info) "state" = map_index (types.Metadata info') "state" →
     getState json_Unmarshal info = getState json_Unmarshal info') ∧
  (types.Metadata info = None →
     getState json_Unmarshal info = json_Unmarshal "" state_zero) ∧
  (∀ m, types.Metadata info = Some m → m !! "state" = None →
     getState json_Unmarshal info = json_Unmarshal "" state_zero) ∧
  (∀ m key value, types.Metadata info = Some m → key ≠ "state" →
     getState json_Unmarshal (set_Metadata info (Some (<[key := value]> m)))
     = getState json_Unmarshal info).
Proof.
  unfold getState, map_index. repeat split.
  - by intros ->.
  - by intros ->.
  - intros m -> Hm. cbn. by rewrite Hm.
  - intros m key value -> Hkey. cbn. by rewrite lookup_insert_ne.
Qed.

Lemma getState_reads_state_entry_only_witness :
  getState sample_Unmarshal types.ClusterInfo_zero
  = (state_zero, Some "unexpected end of JSON input") ∧
  getState sample_Unmarshal
    (set_Metadata corrupt_info
       (Some (<["project-id" := "tampered"]>
                {[ "state" := "{not json"; "project-id" := "p1"; "zone" := "z1" ]})))
  = getState sample_Unmarshal corrupt_info.
Proof.
  destruct (getState_reads_state_entry_only sample_Unmarshal types.ClusterInfo_zero
              types.ClusterInfo_zero) as (_ & Hnil & _).
  destruct (getState_reads_state_entry_only sample_Unmarshal corrupt_info corrupt_info)
    as (_ & _ & _ & Hkey).
  split.
  - rewrite Hnil; reflexivity.
  - apply Hkey; [reflexivity | discriminate].
Defined.

(** ** The credential resolver, further *)

(** The paths of [getServiceClient], entered with the mutex free: one goal
    per path, the call evaluated. *)
Ltac resolver_paths ext w Hfree :=
  let tf := fresh "tf" in
  let cp := fresh "cp" in
  let ts := fresh "ts" in
  let nw := fresh "nw" in
  let cs := fresh "cs" in
  let nps := fresh "nps" in
  let ops := fresh "ops" in
  let en := fresh "en" in
  let mu := fresh "mu" in
  let tr := fresh "tr" in
  destruct ext as [tf cp ts nw]; destruct w as [cs nps ops en mu tr];
  cbn in Hfree; subst mu; proc_eval;
  match goal with
  | st : state |- _ =>
      destruct (nonempty (CredentialPath st)) eqn:?;
      (destruct (nonempty (CredentialContent st)) eqn:?;
       [destruct tf as [?file|?err]; [destruct cp as [?err|]|]|]);
      proc_eval; rewrite ?lookup_insert_eq;
      try (match goal with |- context [ts ?x] => destruct (ts x) as [?tok|?err] eqn:? end;
           proc_eval;
           try (match goal with |- context [nw ?x] => destruct (nw x) as [?svc|?err] eqn:? end;
                proc_eval))
  end;
  match goal with
  | |- context [mkWorld _ _ _ _ _ ?t] =>
      let ev := events_on_top t tr constr:(@nil event) in
      eexists _, _, ev
  end;
  (split; [reflexivity|]); (split; [reflexivity|]).



(** X13.  The result of [getServiceClient] has exactly one of the service and
    the error nil, and it is that of the first outside call that fails, in
    the order temporary file, copy, discovery, [raw.New]: a failure to create
    or to write the temporary file is returned as it is; so is a failure of
    the discovery, and then no client is constructed; otherwise the result is
    that of [raw.New] on the client of the discovered token source. *)
Theorem getServiceClient_returns_first_failure
    (ext : Externals) (st : state) (w : World) :
  EnvMutex w = false →
  ∃ res w' ev,
    getServiceClient ext st w = (Done res, w') ∧
    events_between w w' ev ∧
    ((∃ service, res = (Some service, None)) ∨ (∃ err, res = (None, Some err))) ∧
    (∀ err, nonempty (CredentialContent st) = true →
       ioutil_TempFile_result ext = inr err → res = (None, Some err)) ∧
    (∀ file err, nonempty (CredentialContent st) = true →
       ioutil_TempFile_result ext = inl file → io_Copy_result ext = Some err →
       res = (None, Some err)) ∧
    (∀ credential err, credential_source ext st w = Some credential →
       google_DefaultTokenSource_result ext credential = inr err →
       res = (None, Some err) ∧ count is_client ev = 0%nat) ∧
    (∀ credential ts, credential_source ext st w = Some credential →
       google_DefaultTokenSource_result ext credential = inl ts →
       res = match raw_New_result ext (mkClient ts) with
             | inl service => (Some service, None)
             | inr err => (None, Some err)
             end).
Proof.
  intros Hfree. unfold credential_source.
  resolver_paths ext w Hfree.
  all: cbn [ioutil_TempFile_result io_Copy_result google_DefaultTokenSource_result
            raw_New_result env].
  all: split; [eauto|].
  all: repeat split; intros; simplify_eq.
  all: repeat match goal with
       | H1 : ?a = inl _, H2 : ?a = _ |- _ => rewrite H1 in H2
       | H1 : ?a = inr _, H2 : ?a = _ |- _ => rewrite H1 in H2
       end; simplify_eq.
  all: repeat match goal with
       | H : ?x = _ |- context [match ?x with _ => _ end] => rewrite H
       end; done.
Qed.

Lemma getServiceClient_returns_first_failure_witness :
  let ext := mkExternals (inl (mkFile "/tmp/credential-file123")) None
               (λ _, inr "google: could not find default credentials")
               (λ _, inl (raw.mkService "")) in
  let w := world_answering [] [] [] in
  EnvMutex w = false ∧
  ∃ res w' ev,
    getServiceClient ext credential_state w = (Done res, w') ∧
    events_between w w' ev ∧
    res = (None, Some "google: could not find default credentials") ∧
    count is_client ev = 0%nat.
Proof.
  intros ext w. split; [reflexivity|].
  destruct (getServiceClient_returns_first_failure ext credential_state w eq_refl)
    as (res & w' & ev & Hrun & Hev & _ & _ & _ & Hdiscovery & _).
  exists res, w', ev. split; [exact Hrun|]. split; [exact Hev|].
  apply (Hdiscovery (Some "/tmp/credential-file123")); reflexivity.
Defined.

(** X14.  The temporary file is created only when a credential content is
    given; once created it is written, closed and removed, each once and in
    this order, on every path, also when writing it fails; and when a service
    is returned the file is removed only after the client was constructed. *)
Theorem getServiceClient_temp_file_lifecycle
    (ext : Externals) (st : state) (w : World) :
  EnvMutex w = false →
  ∃ res w' ev,
    getServiceClient ext st w = (Done res, w') ∧
    events_between w w' ev ∧
    List.filter is_file_event ev
    = (if nonempty (CredentialContent st) then
         match ioutil_TempFile_result ext with
         | inr _ => [EvTempFile "" "credential-file"]
         | inl file =>
             [EvTempFile "" "credential-file";
              EvCopy (file_Name file) (CredentialContent st);
              EvClose (file_Name file);
              EvRemove (file_Name file)]
         end
       else []) ∧
    (is_Some res.1 → count is_remove (before_client ev) = 0%nat).
Proof.
  intros Hfree.
  resolver_paths ext w Hfree.
  all: cbn [ioutil_TempFile_result].
  all: split; [reflexivity|].
  all: cbn; intros [service Hservice]; by try discriminate Hservice.
Qed.

Lemma getServiceClient_temp_file_lifecycle_witness :
  let w := world_answering [] [] [] in
  EnvMutex w = false ∧
  ∃ res w' ev,
    getServiceClient externals_ok credential_state w = (Done res, w') ∧
    events_between w w' ev ∧
    List.filter is_file_event ev
    = [EvTempFile "" "credential-file";
       EvCopy "/tmp/credential-file123" "{}";
       EvClose "/tmp/credential-file123";
       EvRemove "/tmp/credential-file123"].
Proof.
  intros w. split; [reflexivity|].
  destruct (getServiceClient_temp_file_lifecycle externals_ok credential_state w eq_refl)
    as (res & w' & ev & Hrun & Hev & Hfile & _).
  exists res, w', ev. split; [exact Hrun|]. split; [exact Hev|]. exact Hfile.
Defined.

(** X15.  A call of [getServiceClient] that gets as far as setting the
    credential variable leaves it unset, whatever value it had before the
    call: the earlier value is not put back.  A call that does not set it
    leaves the environment as it was.  In either case the call consumes no
    answer of the provider, and it fetches nothing, logs nothing and does not
    sleep. *)
Theorem getServiceClient_environment
    (ext : Externals) (st : state) (w : World) :
  EnvMutex w = false →
  ∃ res w' ev,
    getServiceClient ext st w = (Done res, w') ∧
    events_between w w' ev ∧
    env w' = (if sets_variable ext st then delete defaultCredentialEnv (env w)
              else env w) ∧
    clusters w' = clusters w ∧
    nodepools w' = nodepools w ∧
    operations w' = operations w ∧
    count is_fetch ev = 0%nat ∧
    count is_infof ev = 0%nat ∧
    count is_sleep ev = 0%nat.
Proof.
  intros Hfree. unfold sets_variable.
  resolver_paths ext w Hfree.
  all: cbn [ioutil_TempFile_result io_Copy_result env clusters nodepools operations
            orb andb].
  all: split; [rewrite ?delete_delete_eq, ?delete_insert_eq; reflexivity|].
  all: repeat split.
Qed.

Lemma getServiceClient_environment_witness :
  let st := mkState "" "p1" "z1" "" "" 3 "" None "" "c1" None "/etc/key.json" "" false
              None None false None [] "" "" false "" None None "" types.ClusterInfo_zero in
  let w := mkWorld [] [] [] {[ "GOOGLE_APPLICATION_CREDENTIALS" := "/home/user/adc.json" ]}
             false [] in
  EnvMutex w = false ∧
  ∃ res w' ev,
    getServiceClient externals_ok st w = (Done res, w') ∧
    events_between w w' ev ∧
    env w' !! "GOOGLE_APPLICATION_CREDENTIALS" = None.
Proof.
  intros st w. split; [reflexivity|].
  destruct (getServiceClient_environment externals_ok st w eq_refl)
    as (res & w' & ev & Hrun & Hev & Henv & _).
  exists res, w', ev. split; [exact Hrun|]. split; [exact Hev|].
  rewrite Henv. reflexivity.
Defined.

(** ** The polling loops, further *)

Section WaitPending.

Variable strings_ToLower : string → string.
Variable st : state.

(** A fetch the provider does not answer never returns, and the loop with
    it. *)
Lemma waitCluster_unanswered lastMsg w :
  clusters w = [] →
  ¬ ∃ w' r, run (ITree.iter (waitCluster_iteration strings_ToLower st) lastMsg) w
            ≈ Ret (w', r).
Proof.
  intros Hc (w' & r & H). unfold run in H. rewrite unfold_iter in H.
  unfold waitCluster_iteration at 1, mbind, itree_mbind in H.
  rewrite bind_bind, interp_state_bind, interp_state_trigger in H. cbn in H.
  rewrite Hc in H. cbn in H.
  apply eutt_inv_bind_ret in H as (a & Hspin & _).
  by apply eutt_spin_Ret_abs in Hspin.
Qed.

Lemma waitNodePool_unanswered lastMsg w :
  nodepools w = [] →
  ¬ ∃ w' r, run (ITree.iter (waitNodePool_iteration strings_ToLower st) lastMsg) w
            ≈ Ret (w', r).
Proof.
  intros Hc (w' & r & H). unfold run in H. rewrite unfold_iter in H.
  unfold waitNodePool_iteration at 1, mbind, itree_mbind in H.
  rewrite bind_bind, interp_state_bind, interp_state_trigger in H. cbn in H.
  rewrite Hc in H. cbn in H.
  apply eutt_inv_bind_ret in H as (a & Hspin & _).
  by apply eutt_spin_Ret_abs in Hspin.
Qed.

End WaitPending.

(** X16.  The polling loops return on the terminal status or on a failed
    fetch only: against a provider that answers any number of statuses other
    than "RUNNING" (an "ERROR" status is one) and then nothing more, no run
    of [waitCluster] returns, with or without an error; nor does one of
    [waitNodePool]. *)
Theorem wait_returns_on_running_or_error_only
    (strings_ToLower : string → string) (st : state) (w : World)
    (cs : list raw.Cluster) (nps : list raw.NodePool) :
  Forall (λ c, raw.Status c ≠ runningStatus) cs →
  clusters w = inl <$> cs →
  Forall (λ np, raw.np_Status np ≠ runningStatus) nps →
  nodepools w = inl <$> nps →
  (¬ ∃ w' r, run (waitCluster strings_ToLower st) w ≈ Ret (w', r)) ∧
  (¬ ∃ w' r, run (waitNodePool strings_ToLower st) w ≈ Ret (w', r)).
Proof.
  intros Hcs Hw Hnps Hw'. split.
  - intros (w' & r & H). unfold waitCluster in H.
    rewrite (waitCluster_polls strings_ToLower st cs "" w []) in H;
      [|exact Hcs|by rewrite app_nil_r].
    eapply waitCluster_unanswered; [|by exists w', r; exact H]. reflexivity.
  - intros (w' & r & H). unfold waitNodePool in H.
    rewrite (waitNodePool_polls strings_ToLower st nps "" w []) in H;
      [|exact Hnps|by rewrite app_nil_r].
    eapply waitNodePool_unanswered; [|by exists w', r; exact H]. reflexivity.
Qed.

Lemma wait_returns_on_running_or_error_only_witness :
  let w := world_answering
             [inl (cluster_in "PROVISIONING"); inl (cluster_in "ERROR");
              inl (cluster_in "ERROR")]
             [inl (nodepool_in "STOPPING")] [] in
  (¬ ∃ w' r, run (waitCluster ascii_ToLower scenario_state) w ≈ Ret (w', r)) ∧
  (¬ ∃ w' r, run (waitNodePool ascii_ToLower scenario_state) w ≈ Ret (w', r)).
Proof.
  intros w.
  apply (wait_returns_on_running_or_error_only ascii_ToLower scenario_state w
           [cluster_in "PROVISIONING"; cluster_in "ERROR"; cluster_in "ERROR"]
           [nodepool_in "STOPPING"]).
  - repeat constructor; discriminate.
  - reflexivity.
  - repeat constructor; discriminate.
  - reflexivity.
Defined.

(** ** The declared options and the decoder *)

Lemma absent_when_undeclared {A : Type} (flags : gmap string types_Flag)
    (m : gmap string A) (keys : list string) :
  (∀ key, is_Some (m !! key) → is_Some (flags !! key)) →
  Forall (λ key, flags !! key = None) keys →
  ∀ key, key ∈ keys → m !! key = None.
Proof.
  intros Hdeclared Hkeys key Hkey.
  rewrite Forall_forall in Hkeys. specialize (Hkeys key Hkey).
  destruct (m !! key) eqn:Hm; [|reflexivity].
  destruct (Hdeclared key) as [flag Hflag]; [by rewrite Hm|]. congruence.
Qed.

(** X17.  The create options the driver declares are 28, and none of them
    is an option the decoder needs: "project-id", "projectId" and "zone" are
    not declared.  So an option bag that holds declared create options only,
    read by a library that answers the zero value for an absent option,
    never decodes to a valid record: decoding returns "project ID is
    required". *)
Theorem declared_create_options_never_validate
    (G : types.DriverOptions → types.OptionType → list string → iface)
    (opts : types.DriverOptions) :
  library_typed G →
  library_zero_when_absent G →
  declared_only (mkDriverFlags declared_create_options) opts →
  GetDriverCreateOptions = (Some (mkDriverFlags declared_create_options), None) ∧
  size declared_create_options = 28%nat ∧
  declared_create_options !! "project-id" = None ∧
  declared_create_options !! "projectId" = None ∧
  declared_create_options !! "zone" = None ∧
  ∃ d, getStateFromOpts G opts = Some (d, Some "project ID is required").
Proof.
  intros Htyped Hzero (Hstrings & _). cbn [Options] in Hstrings.
  split; [reflexivity|]. split; [vm_compute; reflexivity|].
  assert (Hproject : declared_create_options !! "project-id" = None)
    by (vm_compute; reflexivity).
  assert (HprojectId : declared_create_options !! "projectId" = None)
    by (vm_compute; reflexivity).
  assert (Hzone : declared_create_options !! "zone" = None)
    by (vm_compute; reflexivity).
  do 3 (split; [assumption|]).
  destruct (getStateFromOpts_record G opts Htyped)
    as (d & nc & locations & labelValues & Hd & _ & _ & Hpid & _).
  exists d. rewrite Hd. do 2 f_equal.
  destruct (Hzero opts ["project-id"; "projectId"]) as [Hempty _].
  rewrite Hempty in Hpid.
  - injection Hpid as Hpid. unfold validate. by rewrite <- Hpid.
  - eapply absent_when_undeclared; [exact Hstrings|]. by repeat constructor.
Qed.

(** X18.  The one update option the driver declares, "num-of-nodes", is not
    an option the decoder reads (it reads the node count under "node-count"
    and "nodeCount").  So an option bag that holds the declared update option
    only, read by a library that answers the zero value for an absent option,
    decodes to a node count of zero, whatever number it holds, and to the
    error "project ID is required". *)
Theorem declared_update_option_is_not_read
    (G : types.DriverOptions → types.OptionType → list string → iface)
    (opts : types.DriverOptions) :
  library_typed G →
  library_zero_when_absent G →
  declared_only (mkDriverFlags declared_update_options) opts →
  GetDriverUpdateOptions = (Some (mkDriverFlags declared_update_options), None) ∧
  (∀ key, is_Some (declared_update_options !! key) ↔ key = "num-of-nodes") ∧
  ∃ d, getStateFromOpts G opts = Some (d, Some "project ID is required") ∧
       NodeCount d = 0.
Proof.
  intros Htyped Hzero (Hstrings & Hints & _). cbn [Options] in Hstrings, Hints.
  split; [reflexivity|].
  assert (Hkeys : ∀ key, is_Some (declared_update_options !! key) ↔ key = "num-of-nodes").
  { intros key. unfold declared_update_options. cbv zeta.
    destruct (decide (key = "num-of-nodes")) as [->|Hne].
    - rewrite lookup_insert_eq. by split.
    - rewrite lookup_insert_ne, lookup_empty by done. split; [by intros [? ?]|done]. }
  split; [exact Hkeys|].
  destruct (getStateFromOpts_record G opts Htyped)
    as (d & nc & locations & labelValues & Hd & _ & _ & Hpid & _ & _ & _ & _ & _ & _
        & _ & _ & _ & _ & _ & Hcount & _).
  exists d.
  destruct (Hzero opts ["project-id"; "projectId"]) as [Hempty _].
  destruct (Hzero opts ["node-count"; "nodeCount"]) as [_ Hnone].
  rewrite Hempty in Hpid; [rewrite Hnone in Hcount|].
  - injection Hpid as Hpid. injection Hcount as Hcount. split; [|done].
    rewrite Hd. do 2 f_equal. unfold validate. by rewrite <- Hpid.
  - intros key Hkey. destruct (types.IntOptions opts !! key) eqn:Hm; [|reflexivity].
    assert (key = "num-of-nodes") as ->.
    { apply Hkeys, Hints. by rewrite Hm. }
    apply list_elem_of_In in Hkey. cbn in Hkey. intuition discriminate.
  - intros key Hkey. destruct (types.StringOptions opts !! key) eqn:Hm; [|reflexivity].
    assert (key = "num-of-nodes") as ->.
    { apply Hkeys, Hstrings. by rewrite Hm. }
    apply list_elem_of_In in Hkey. cbn in Hkey. intuition discriminate.
Qed.

Lemma first_present_absent {V : Type} (m : gmap string V) (keys : list string) :
  (∀ key, key ∈ keys → m !! key = None) → first_present m keys = None.
Proof.
  induction keys as [|key keys IH]; intros Habsent; [reflexivity|].
  cbn [first_present]. rewrite (Habsent key) by (left).
  apply IH. intros key' Hkey'. apply Habsent. by right.
Qed.

Lemma options_library_zero_when_absent :
  library_zero_when_absent options_GetValueFromDriverOptions.
Proof.
  intros opts keys. unfold options_GetValueFromDriverOptions.
  split; intros Habsent; by rewrite first_present_absent.
Qed.

(** Every key of a map given by its inserts is declared. *)
Ltac declared_keys :=
  let key := fresh "key" in
  let v := fresh "v" in
  let Hv := fresh "Hv" in
  intros key [v Hv];
  cbv delta [aliyun_options resize_options] in Hv;
  cbn [types.StringOptions types.IntOptions types.BoolOptions types.StringSliceOptions] in Hv;
  repeat (rewrite lookup_insert in Hv; case_decide;
          [subst; vm_compute; eauto|]);
  try (rewrite lookup_singleton in Hv; case_decide;
       [subst; vm_compute; eauto|]);
  rewrite ?lookup_empty in Hv; discriminate Hv.

Lemma declared_create_options_never_validate_witness :
  ∃ d, getStateFromOpts options_GetValueFromDriverOptions aliyun_options
       = Some (d, Some "project ID is required").
Proof.
  apply (declared_create_options_never_validate
           options_GetValueFromDriverOptions aliyun_options).
  - intros opts keys. repeat split; eexists; reflexivity.
  - intros opts keys. unfold options_GetValueFromDriverOptions.
    split; intros Habsent; by rewrite first_present_absent.
  - repeat split; cbn [Options]; declared_keys.
Defined.

Lemma declared_update_option_is_not_read_witness :
  ∃ d, getStateFromOpts options_GetValueFromDriverOptions resize_options
       = Some (d, Some "project ID is required") ∧ NodeCount d = 0.
Proof.
  apply (declared_update_option_is_not_read
           options_GetValueFromDriverOptions resize_options).
  - intros opts keys. repeat split; eexists; reflexivity.
  - intros opts keys. unfold options_GetValueFromDriverOptions.
    split; intros Habsent; by rewrite first_present_absent.
  - repeat split; cbn [Options]; declared_keys.
Defined.

(** ** The service-account token *)

Lemma strings_HasPrefix_app (p s : string) : strings_HasPrefix (p +:+ s) p = true.
Proof.
  induction p as [|a p IH]; [by destruct s|].
  change (String a p +:+ s) with (String a (p +:+ s)).
  cbn [strings_HasPrefix]. by rewrite Ascii.eqb_refl, IH.
Qed.

(** X19.  [generateServiceAccountTokenForGke] panics on a cluster without
    master auth.  When the cluster certificate does not decode it returns
    that error with an empty token, whatever the client library would
    answer.  Otherwise the client is asked for a host that always starts with
    "https://": the endpoint itself when it starts so, and "https://" put
    before the endpoint in every other case, also when the endpoint carries
    another scheme; the client gets the decoded certificate and the user name
    and password of the master auth, and the result is the error of the
    client library with an empty token, or what the token generator
    returns. *)
Theorem service_account_token_host_is_https
    (Clientset : Type)
    (base64_DecodeString : string → string + error)
    (kubernetes_NewForConfig : rest_Config → Clientset + error)
    (util_GenerateServiceAccountToken : Clientset → string * option error)
    (cluster : raw.Cluster) :
  let generate :=
    generateServiceAccountTokenForGke Clientset base64_DecodeString
      kubernetes_NewForConfig util_GenerateServiceAccountToken in
  (raw.MasterAuth_ cluster = None → generate cluster = None) ∧
  (∀ auth err,
     raw.MasterAuth_ cluster = Some auth →
     base64_DecodeString (raw.ClusterCaCertificate auth) = inr err →
     generate cluster = Some ("", Some err)) ∧
  (∀ auth capem,
     raw.MasterAuth_ cluster = Some auth →
     base64_DecodeString (raw.ClusterCaCertificate auth) = inl capem →
     ∃ config,
       strings_HasPrefix (Host config) "https://" = true ∧
       (strings_HasPrefix (raw.Endpoint cluster) "https://" = true →
          Host config = raw.Endpoint cluster) ∧
       (strings_HasPrefix (raw.Endpoint cluster) "https://" = false →
          Host config = "https://" +:+ raw.Endpoint cluster) ∧
       TLSClientConfig config = {| CAData := capem |} ∧
       cfg_Username config = raw.Username auth ∧
       cfg_Password config = raw.Password auth ∧
       generate cluster
       = Some (match kubernetes_NewForConfig config with
               | inr err => ("", Some err)
               | inl clientset => util_GenerateServiceAccountToken clientset
               end)).
Proof.
  intros generate. unfold generate, generateServiceAccountTokenForGke.
  split; [intros ->; reflexivity|].
  split; [intros auth err -> Hdecode; cbn; by rewrite Hdecode|].
  intros auth capem -> Hdecode. cbn [mbind option_bind]. rewrite Hdecode.
  exists {| Host := if negb (strings_HasPrefix (raw.Endpoint cluster) "https://")
                    then "https://" +:+ raw.Endpoint cluster else raw.Endpoint cluster;
            TLSClientConfig := {| CAData := capem |};
            cfg_Username := raw.Username auth;
            cfg_Password := raw.Password auth |}.
  cbn [Host TLSClientConfig cfg_Username cfg_Password].
  split; [|split; [|split; [|split; [reflexivity|split; [reflexivity|split;
    [reflexivity|by destruct (kubernetes_NewForConfig _)]]]]]].
  - destruct (strings_HasPrefix (raw.Endpoint cluster) "https://") eqn:Hprefix;
      cbn [negb]; [exact Hprefix | apply strings_HasPrefix_app].
  - by intros ->.
  - by intros ->.
Qed.

Lemma service_account_token_host_is_https_witness :
  generateServiceAccountTokenForGke rest_Config (λ s, inl s) (λ config, inl config)
    (λ config, (Host config, None)) (endpoint_cluster "http://10.0.0.1")
  = Some ("https://http://10.0.0.1", None) ∧
  generateServiceAccountTokenForGke rest_Config (λ s, inl s) (λ config, inl config)
    (λ config, (Host config, None)) (endpoint_cluster "https://10.0.0.1")
  = Some ("https://10.0.0.1", None).
Proof.
  split.
  - destruct (service_account_token_host_is_https rest_Config (λ s, inl s)
                (λ config, inl config) (λ config, (Host config, None))
                (endpoint_cluster "http://10.0.0.1")) as (_ & _ & Hok).
    destruct (Hok (raw.mkMasterAuth "admin" "secret" "Q0E=") "Q0E=" eq_refl eq_refl)
      as (config & _ & _ & Hhost & _ & _ & _ & Hresult).
    rewrite Hresult, Hhost; reflexivity.
  - destruct (service_account_token_host_is_https rest_Config (λ s, inl s)
                (λ config, inl config) (λ config, (Host config, None))
                (endpoint_cluster "https://10.0.0.1")) as (_ & _ & Hok).
    destruct (Hok (raw.mkMasterAuth "admin" "secret" "Q0E=") "Q0E=" eq_refl eq_refl)
      as (config & _ & Hhost & _ & _ & _ & _ & Hresult).
    rewrite Hresult, Hhost; reflexivity.
Defined.

(** ** The operations that resolve the client *)


Section OperationFacts.

Variable ext : Externals.
Variable strings_ToLower : string → string.
Variable json_Unmarshal : string → state → state * option error.




End OperationFacts.



Section UpdateFacts.

Variable ext : Externals.
Variable strings_ToLower : string → string.
Variable json_Unmarshal : string → state → state * option error.




End UpdateFacts.


